(** * Device inventory: the in-memory device repository

    A shallow embedding of [src/models/device.py], [src/repositories/exceptions.py]
    and [src/repositories/memory.py], and the properties of the repository
    contract checked against it.

    Modelling choices.
    - A Python [dict] is a [gmap]. The three dictionaries of the repository are
      only ever read by key, except [_devices], whose values are enumerated by
      [get_all] and [filter_by]; the enumeration order of the model is the one
      of [map_to_list], not Python's insertion order, and no statement below
      depends on the order.
    - [uuid4()] and [datetime.now()] are the two sources of non-determinism of
      the repository. Their results are explicit arguments of the operations
      that call them, so that a statement can say what is assumed of them.
    - Methods run in a small state-and-exception monad over the repository
      object; a [raise] keeps the mutations made before it, as in Python.
    - A Python [str] is a [string] holding its UTF-8 text: equality of strings
      is equality of texts, and lengths and whitespace are those of the code
      points (a byte string that is not well-formed UTF-8 stands for no [str]).
      A [datetime] is a number of microseconds; a [UUID] is its 128-bit
      integer.
    - A value that Python lets be [None] is an [option]: the fields of a
      stored [Device], which [model_copy] overwrites without validation, and
      the keys of the hostname index. A field of an update payload is [None]
      when it was not set, [Some None] when it was set to [None], and
      [Some (Some v)] when it was set to [v]. *)

From stdpp Require Import gmap strings list fin_maps pretty.
From Stdlib Require Import ZArith Ascii String.

Local Open Scope string_scope.

(** ** Primitive types *)

Definition UUID : Type := N.
Definition datetime : Type := Z.

Bind Scope N_scope with UUID.
Bind Scope Z_scope with datetime.

(** ** pydantic string constraints ([str_strip_whitespace], [min_length],
       [max_length]) *)

(** The validator trims, on both sides, the characters of Unicode's
    [White_Space] class, and counts lengths in code points. On the UTF-8
    text, the class is: U+0009 to U+000D and U+0020 (one byte each); U+0085
    and U+00A0 (C2 85, C2 A0); U+1680 (E1 9A 80); U+2000 to U+200A, U+2028,
    U+2029 and U+202F (E2 80 80 to E2 80 8A, E2 80 A8, E2 80 A9, E2 80 AF);
    U+205F (E2 81 9F); U+3000 (E3 80 80). *)
Definition whitespace1 (c1 : ascii) : bool :=
  let b1 := N_of_ascii c1 in
  (((9 <=? b1) && (b1 <=? 13)) || (b1 =? 32))%N.

Definition whitespace2 (c1 c2 : ascii) : bool :=
  let b1 := N_of_ascii c1 in
  let b2 := N_of_ascii c2 in
  ((b1 =? 0xC2) && ((b2 =? 0x85) || (b2 =? 0xA0)))%N.

Definition whitespace3 (c1 c2 c3 : ascii) : bool :=
  let b1 := N_of_ascii c1 in
  let b2 := N_of_ascii c2 in
  let b3 := N_of_ascii c3 in
  (((b1 =? 0xE1) && (b2 =? 0x9A) && (b3 =? 0x80))
   || ((b1 =? 0xE2) && (b2 =? 0x80)
       && (((0x80 <=? b3) && (b3 <=? 0x8A))
           || (b3 =? 0xA8) || (b3 =? 0xA9) || (b3 =? 0xAF)))
   || ((b1 =? 0xE2) && (b2 =? 0x81) && (b3 =? 0x9F))
   || ((b1 =? 0xE3) && (b2 =? 0x80) && (b3 =? 0x80)))%N.

(** The text without the whitespace characters it starts with. *)
Fixpoint lstrip (s : string) : string :=
  match s with
  | EmptyString => s
  | String c1 s1 =>
      if whitespace1 c1 then lstrip s1
      else
        match s1 with
        | EmptyString => s
        | String c2 s2 =>
            if whitespace2 c1 c2 then lstrip s2
            else
              match s2 with
              | EmptyString => s
              | String c3 s3 => if whitespace3 c1 c2 c3 then lstrip s3 else s
              end
        end
  end.

(** The text is made of whitespace characters only. *)
Fixpoint all_whitespace (s : string) : bool :=
  match s with
  | EmptyString => true
  | String c1 s1 =>
      if whitespace1 c1 then all_whitespace s1
      else
        match s1 with
        | EmptyString => false
        | String c2 s2 =>
            if whitespace2 c1 c2 then all_whitespace s2
            else
              match s2 with
              | EmptyString => false
              | String c3 s3 => whitespace3 c1 c2 c3 && all_whitespace s3
              end
        end
  end.

(** The text without the whitespace characters it ends with: it is cut where
    the rest is whitespace only. *)
Fixpoint rstrip (s : string) : string :=
  match s with
  | EmptyString => EmptyString
  | String c s' => if all_whitespace s then EmptyString else String c (rstrip s')
  end.

Definition strip_whitespace (s : string) : string := lstrip (rstrip s).

(** [len(s)]: the number of code points, that is, of the bytes of the text
    that are not continuation bytes (80 to BF). *)
Fixpoint len (s : string) : nat :=
  match s with
  | EmptyString => 0
  | String c s' =>
      let b := N_of_ascii c in
      if ((0x80 <=? b) && (b <=? 0xBF))%N then len s' else S (len s')
  end.

(** [Field(..., min_length=lo, max_length=hi)] on a value. *)
Definition length_ok (lo hi : nat) (s : string) : bool :=
  (lo <=? len s)%nat && (len s <=? hi)%nat.

(** Nothing is left of the text once it is trimmed. *)
Definition blank (s : string) : Prop := len (strip_whitespace s) = 0%nat.

#[global] Instance blank_dec s : Decision (blank s).
Proof. unfold blank. apply _. Defined.

(** ** [ipaddress]: the two address classes and their [str] *)

(** The repository reads an address through [str] only. The text is the
    dotted quad of an IPv4 address, and for an IPv6 address the eight
    hexadecimal groups with the first longest run of at least two zero groups
    written [::]; scope identifiers are not modelled. No property below
    depends on the shape of the text. *)

Inductive IPvAnyAddress : Type :=
| IPv4Address (packed : N)
| IPv6Address (packed : N).

#[global] Instance IPvAnyAddress_eq_dec : EqDecision IPvAnyAddress.
Proof. solve_decision. Defined.

Definition join (sep : string) (parts : list string) : string :=
  match parts with
  | [] => ""
  | p :: ps => fold_left (fun acc q => acc ++ sep ++ q) ps p
  end.

Definition ipv4_str (n : N) : string :=
  join "." (map (fun k : N => pretty (N.land (N.shiftr n (8 * k)) 255)%N) [3; 2; 1; 0]%N).

Definition hex_digit (d : N) : string :=
  String (ascii_of_N (if d <? 10 then 48 + d else 87 + d)%N) EmptyString.

(** ['%x' % hextet] for a 16-bit value. *)
Definition hex16 (h : N) : string :=
  let d (k : N) := hex_digit (N.land (N.shiftr h (4 * k)) 15) in
  if (h <? 16)%N then d 0%N
  else if (h <? 256)%N then d 1%N ++ d 0%N
  else if (h <? 4096)%N then d 2%N ++ d 1%N ++ d 0%N
  else d 3%N ++ d 2%N ++ d 1%N ++ d 0%N.

(** The scan of [_compress_hextets]: the first longest run of zero hextets,
    as [(best_start, best_len)], with the run being read in [(cur_start, cur_len)]. *)
Fixpoint best_zero_run (hextets : list N) (index : nat)
    (cur : option nat * nat) (best : option nat * nat) : option nat * nat :=
  match hextets with
  | [] => best
  | h :: rest =>
      if (h =? 0)%N then
        let cur_len := S (snd cur) in
        let cur_start := match fst cur with Some i => i | None => index end in
        let best' := if (snd best <? cur_len)%nat then (Some cur_start, cur_len) else best in
        best_zero_run rest (S index) (Some cur_start, cur_len) best'
      else best_zero_run rest (S index) (None, 0%nat) best
  end.

Definition ipv6_str (n : N) : string :=
  let hextets :=
    map (fun k : N => N.land (N.shiftr n (16 * k)) 65535)%N [7; 6; 5; 4; 3; 2; 1; 0]%N in
  let texts := map hex16 hextets in
  match best_zero_run hextets 0 (None, 0%nat) (None, 0%nat) with
  | (Some start, len) =>
      if (1 <? len)%nat then
        let stop := (start + len)%nat in
        let tail := if (stop =? 8)%nat then [""] else drop stop texts in
        let head := if (start =? 0)%nat then [""] else take start texts in
        join ":" (head ++ [""] ++ tail)
      else join ":" texts
  | (None, _) => join ":" texts
  end.

(** [str(address)]: the canonical text under which an address is indexed. *)
Definition str (a : IPvAnyAddress) : string :=
  match a with
  | IPv4Address n => ipv4_str n
  | IPv6Address n => ipv6_str n
  end.

(** [str(value)] for an address that may be [None]. *)
Definition str_value (value : option IPvAnyAddress) : string :=
  match value with
  | Some a => str a
  | None => "None"
  end.

(** ** [src/models/device.py] *)

Inductive DevicePlatform : Type := IOS_XE | IOS_XR | NXOS | EOS | JUNOS.
Inductive DeviceRole : Type := SPINE | LEAF | BORDER | CORE | ACCESS | WAN.

#[global] Instance DevicePlatform_eq_dec : EqDecision DevicePlatform.
Proof. solve_decision. Defined.
#[global] Instance DeviceRole_eq_dec : EqDecision DeviceRole.
Proof. solve_decision. Defined.

(** The [.value] of an enumeration member. *)
Definition DevicePlatform_value (p : DevicePlatform) : string :=
  match p with
  | IOS_XE => "ios_xe"
  | IOS_XR => "ios_xr"
  | NXOS => "nxos"
  | EOS => "eos"
  | JUNOS => "junos"
  end.

Definition DeviceRole_value (r : DeviceRole) : string :=
  match r with
  | SPINE => "spine"
  | LEAF => "leaf"
  | BORDER => "border"
  | CORE => "core"
  | ACCESS => "access"
  | WAN => "wan"
  end.

Module Device.
(** The five fields that an update can overwrite hold a value of their
    declared type or [None]: the constructor only builds the former,
    [model_copy] stores what it is given. *)
Record t : Type := mk {
  id : UUID;
  hostname : option string;
  management_ip : option IPvAnyAddress;
  platform : option DevicePlatform;
  role : option DeviceRole;
  site : option string;
  created_at : datetime;
  updated_at : datetime
}.
End Device.

Module DeviceCreate.
Record t : Type := mk {
  hostname : string;
  management_ip : IPvAnyAddress;
  platform : DevicePlatform;
  role : DeviceRole;
  site : string
}.

(** What the schema's own validation guarantees of an instance: the two
    length constraints. The schema has no [str_strip_whitespace]. *)
Definition valid (p : t) : Prop :=
  length_ok 1 253 (hostname p) = true ∧ length_ok 1 100 (site p) = true.
End DeviceCreate.

Module DeviceUpdate.
(** Every field is [Optional] with default [None]: [None] here is a field
    that was not set, [Some v] a field that was set to [v], where [v] is a
    value or [None]. *)
Record t : Type := mk {
  hostname : option (option string);
  management_ip : option (option IPvAnyAddress);
  platform : option (option DevicePlatform);
  role : option (option DeviceRole);
  site : option (option string)
}.

(** The schema's validation: the length constraints, on the strings that
    were given. *)
Definition valid (u : t) : Prop :=
  (∀ h, hostname u = Some (Some h) → length_ok 1 253 h = true) ∧
  (∀ s, site u = Some (Some s) → length_ok 1 100 s = true).
End DeviceUpdate.

(** ** [src/repositories/exceptions.py], and the three library exceptions the
       repository can let through *)

(** [DuplicateDeviceError] keeps the [value] it is given, which [update] can
    make [None]; pydantic's [ValidationError] lists the fields that failed. *)
Inductive Exception : Type :=
| DuplicateDeviceError (field : string) (value : option string)
| ValidationError (locs : list string)
| KeyError
| AttributeError.

Inductive Result (A : Type) : Type :=
| Return (a : A)
| Raise (e : Exception).
Arguments Return {A} a.
Arguments Raise {A} e.

(** [Device(hostname=..., management_ip=..., platform=..., role=..., site=...)]:
    the model's configuration strips both strings, then checks their lengths,
    and one [ValidationError] reports every field that failed, in the order
    of the fields; [id], [created_at] and [updated_at] come from the default
    factories, in the order of the fields. *)
Definition Device_init (uuid4 : UUID) (now_created now_updated : datetime)
    (hostname : string) (management_ip : IPvAnyAddress)
    (platform : DevicePlatform) (role : DeviceRole) (site : string) : Result Device.t :=
  let hostname' := strip_whitespace hostname in
  let site' := strip_whitespace site in
  let errors : list string :=
    ((if length_ok 1 253 hostname' then [] else ["hostname"])
     ++ (if length_ok 1 100 site' then [] else ["site"]))%list in
  match errors with
  | [] => Return (Device.mk uuid4 (Some hostname') (Some management_ip) (Some platform)
                    (Some role) (Some site') now_created now_updated)
  | _ :: _ => Raise (ValidationError errors)
  end.

(** The dictionary [update_data.model_dump(exclude_unset=True)], to which
    [update] later adds the key ["updated_at"]: a key is present when its
    field was set, whatever it was set to. *)
Module Updates.
Record t : Type := mk {
  hostname : option (option string);
  management_ip : option (option IPvAnyAddress);
  platform : option (option DevicePlatform);
  role : option (option DeviceRole);
  site : option (option string);
  updated_at : option datetime
}.

(** [not updates] *)
Definition is_empty (u : t) : bool :=
  match hostname u, management_ip u, platform u, role u, site u, updated_at u with
  | None, None, None, None, None, None => true
  | _, _, _, _, _, _ => false
  end.

(** [updates["updated_at"] = now] *)
Definition set_updated_at (now : datetime) (u : t) : t :=
  mk (hostname u) (management_ip u) (platform u) (role u) (site u) (Some now).
End Updates.

Definition model_dump_exclude_unset (update_data : DeviceUpdate.t) : Updates.t :=
  Updates.mk (DeviceUpdate.hostname update_data) (DeviceUpdate.management_ip update_data)
    (DeviceUpdate.platform update_data) (DeviceUpdate.role update_data)
    (DeviceUpdate.site update_data) None.

(** [existing.model_copy(update=updates)]: a copy with the listed fields
    replaced, without validation. *)
Definition model_copy (existing : Device.t) (updates : Updates.t) : Device.t :=
  Device.mk (Device.id existing)
    (default (Device.hostname existing) (Updates.hostname updates))
    (default (Device.management_ip existing) (Updates.management_ip updates))
    (default (Device.platform existing) (Updates.platform updates))
    (default (Device.role existing) (Updates.role updates))
    (default (Device.site existing) (Updates.site updates))
    (Device.created_at existing)
    (default (Device.updated_at existing) (Updates.updated_at updates)).

(** ** [src/repositories/memory.py] *)

Module InMemoryDeviceRepository.
(** The repository object: the primary store and the two secondary indexes.
    A key of the hostname index is what a device has as hostname; a key of
    the IP index is a text. *)
Record t : Type := mk {
  _devices : gmap UUID Device.t;
  _hostname_index : gmap (option string) UUID;
  _ip_index : gmap string UUID
}.

(** [InMemoryDeviceRepository()] *)
Definition __init__ : t := mk ∅ ∅ ∅.

(** *** The monad of methods *)

Definition M (A : Type) : Type := t → Result A * t.

#[global] Instance M_ret : MRet M := λ A a self, (Return a, self).

#[global] Instance M_bind : MBind M := λ A B f m self,
  match m self with
  | (Return a, self') => f a self'
  | (Raise e, self') => (Raise e, self')
  end.

Definition raise {A} (e : Exception) : M A := λ self, (Raise e, self).

(** Reading an attribute of [self]. *)
Definition attr {A} (field : t → A) : M A :=
  λ self, (Return (field self), self).

(** [k in d] *)
Definition contains `{Countable K} {V} (k : K) (d : gmap K V) : bool :=
  match d !! k with Some _ => true | None => false end.

(** [self._devices[k] = v], [self._hostname_index[k] = v], [self._ip_index[k] = v] *)
Definition devices_setitem (k : UUID) (v : Device.t) : M () := λ self,
  (Return (), mk (<[k := v]> (_devices self)) (_hostname_index self) (_ip_index self)).

Definition hostname_index_setitem (k : option string) (v : UUID) : M () := λ self,
  (Return (), mk (_devices self) (<[k := v]> (_hostname_index self)) (_ip_index self)).

Definition ip_index_setitem (k : string) (v : UUID) : M () := λ self,
  (Return (), mk (_devices self) (_hostname_index self) (<[k := v]> (_ip_index self))).

(** [del self._devices[k]] and its two siblings; [del] of a missing key
    raises [KeyError]. *)
Definition devices_delitem (k : UUID) : M () := λ self,
  if contains k (_devices self)
  then (Return (), mk (delete k (_devices self)) (_hostname_index self) (_ip_index self))
  else (Raise KeyError, self).

Definition hostname_index_delitem (k : option string) : M () := λ self,
  if contains k (_hostname_index self)
  then (Return (), mk (_devices self) (delete k (_hostname_index self)) (_ip_index self))
  else (Raise KeyError, self).

Definition ip_index_delitem (k : string) : M () := λ self,
  if contains k (_ip_index self)
  then (Return (), mk (_devices self) (_hostname_index self) (delete k (_ip_index self)))
  else (Raise KeyError, self).

(** Running a constructor that may raise. *)
Definition lift {A} (r : Result A) : M A := λ self, (r, self).

(** [list(d.values())] *)
Definition values {V} (d : gmap UUID V) : list V := (map_to_list d).*2.

(** *** The methods *)

Definition add (uuid4 : UUID) (now_created now_updated : datetime)
    (device_data : DeviceCreate.t) : M Device.t :=
  (* Check for duplicate hostname *)
  hostname_index ← attr _hostname_index;
  if contains (Some (DeviceCreate.hostname device_data)) hostname_index
  then raise (DuplicateDeviceError "hostname" (Some (DeviceCreate.hostname device_data)))
  else
  (* Check for duplicate IP *)
  let ip_str := str (DeviceCreate.management_ip device_data) in
  ip_index ← attr _ip_index;
  if contains ip_str ip_index
  then raise (DuplicateDeviceError "management_ip" (Some ip_str))
  else
  (* Create the full Device from the create schema *)
  device ← lift (Device_init uuid4 now_created now_updated
                   (DeviceCreate.hostname device_data)
                   (DeviceCreate.management_ip device_data)
                   (DeviceCreate.platform device_data)
                   (DeviceCreate.role device_data)
                   (DeviceCreate.site device_data));
  (* Store in primary and secondary indexes *)
  devices_setitem (Device.id device) device;;
  hostname_index_setitem (Device.hostname device) (Device.id device);;
  ip_index_setitem (str_value (Device.management_ip device)) (Device.id device);;
  mret device.

Definition get_by_id (device_id : UUID) : M (option Device.t) :=
  devices ← attr _devices;
  mret (devices !! device_id).

(** The annotation [hostname: str] is not enforced: [None] is a key like
    another for [dict.get]. *)
Definition get_by_hostname (hostname : option string) : M (option Device.t) :=
  hostname_index ← attr _hostname_index;
  match hostname_index !! hostname with
  | None => mret None
  | Some device_id =>
      devices ← attr _devices;
      mret (devices !! device_id)
  end.

Definition get_all : M (list Device.t) :=
  devices ← attr _devices;
  mret (values devices).

Definition update (now : datetime) (device_id : UUID)
    (update_data : DeviceUpdate.t) : M (option Device.t) :=
  devices ← attr _devices;
  match devices !! device_id with
  | None => mret None
  | Some existing =>
      let updates := model_dump_exclude_unset update_data in
      if Updates.is_empty updates then mret (Some existing) (* Nothing to update *)
      else
      (* Check for duplicate hostname if it's being changed *)
      match Updates.hostname updates with
      | Some new_hostname =>
          if bool_decide (new_hostname ≠ Device.hostname existing) then
            hostname_index ← attr _hostname_index;
            if contains new_hostname hostname_index
            then raise (DuplicateDeviceError "hostname" new_hostname)
            else mret ()
          else mret ()
      | None => mret ()
      end;;
      (* Check for duplicate IP if it's being changed *)
      match Updates.management_ip updates with
      | Some ip =>
          let new_ip := str_value ip in
          ip_index ← attr _ip_index;
          if bool_decide (new_ip ≠ str_value (Device.management_ip existing))
             && contains new_ip ip_index
          then raise (DuplicateDeviceError "management_ip" (Some new_ip))
          else mret ()
      | None => mret ()
      end;;
      (* Add updated_at timestamp *)
      let updates := Updates.set_updated_at now updates in
      (* Create new device with updates *)
      let updated_device := model_copy existing updates in
      (* Update indexes if hostname or IP changed *)
      (if bool_decide (Device.hostname updated_device ≠ Device.hostname existing) then
         hostname_index_delitem (Device.hostname existing);;
         hostname_index_setitem (Device.hostname updated_device) device_id
       else mret ());;
      (if bool_decide (str_value (Device.management_ip updated_device)
                       ≠ str_value (Device.management_ip existing)) then
         ip_index_delitem (str_value (Device.management_ip existing));;
         ip_index_setitem (str_value (Device.management_ip updated_device)) device_id
       else mret ());;
      (* Store updated device *)
      devices_setitem device_id updated_device;;
      mret (Some updated_device)
  end.

Definition delete (device_id : UUID) : M bool :=
  devices ← attr _devices;
  match devices !! device_id with
  | None => mret false
  | Some device =>
      (* Remove from all indexes *)
      devices_delitem device_id;;
      hostname_index_delitem (Device.hostname device);;
      ip_index_delitem (str_value (Device.management_ip device));;
      mret true
  end.

(** [criterion is not None and member.value != criterion]: the attribute
    [.value] is read only when a criterion is given, and reading it of [None]
    raises [AttributeError]. *)
Definition value_differs {A} (value : A → string)
    (criterion : option string) (member : option A) : Result bool :=
  match criterion with
  | None => Return false
  | Some wanted =>
      match member with
      | None => Raise AttributeError
      | Some m => Return (bool_decide (value m ≠ wanted))
      end
  end.

(** The body of the [for] loop of [filter_by], over the devices still to
    visit, with the [results] collected so far. *)
Fixpoint filter_loop (platform role site : option string)
    (devices : list Device.t) (results : list Device.t) : Result (list Device.t) :=
  match devices with
  | [] => Return results
  | device :: rest =>
      match value_differs DevicePlatform_value platform (Device.platform device) with
      | Raise e => Raise e
      | Return true => filter_loop platform role site rest results (* continue *)
      | Return false =>
      match value_differs DeviceRole_value role (Device.role device) with
      | Raise e => Raise e
      | Return true => filter_loop platform role site rest results
      | Return false =>
          if match site with
             | Some s => bool_decide (Device.site device ≠ Some s)
             | None => false
             end
          then filter_loop platform role site rest results
          else filter_loop platform role site rest (results ++ [device])%list
      end
      end
  end.

Definition filter_by (platform role site : option string) : M (list Device.t) :=
  devices ← attr _devices;
  lift (filter_loop platform role site (values devices) []).
End InMemoryDeviceRepository.

Module Repo := InMemoryDeviceRepository.

(** ** The vocabulary of the contract *)

(** An index holds exactly the keys of the stored devices: it maps [k] to
    [device_id] exactly when the store holds, under [device_id], a device
    whose key is [k]. *)
Definition index_ok `{Countable K} (key : Device.t → K)
    (devices : gmap UUID Device.t) (index : gmap K UUID) : Prop :=
  ∀ k device_id, index !! k = Some device_id ↔
    ∃ d, devices !! device_id = Some d ∧ key d = k.

(** The canonical text of a device's management IP: [str(device.management_ip)]. *)
Definition ip_key (d : Device.t) : string := str_value (Device.management_ip d).

(** The three containers are in lockstep: every device is stored under its own
    identity, and each index holds exactly the keys of the stored devices. *)
Definition lockstep (self : Repo.t) : Prop :=
  (∀ device_id d, Repo._devices self !! device_id = Some d → Device.id d = device_id) ∧
  index_ok Device.hostname (Repo._devices self) (Repo._hostname_index self) ∧
  index_ok ip_key (Repo._devices self) (Repo._ip_index self).

Definition unique_hostnames (self : Repo.t) : Prop :=
  ∀ id1 id2 d1 d2,
    Repo._devices self !! id1 = Some d1 → Repo._devices self !! id2 = Some d2 →
    Device.hostname d1 = Device.hostname d2 → id1 = id2.

Definition unique_ips (self : Repo.t) : Prop :=
  ∀ id1 id2 d1 d2,
    Repo._devices self !! id1 = Some d1 → Repo._devices self !! id2 = Some d2 →
    ip_key d1 = ip_key d2 → id1 = id2.

(** A value is owned by a stored device other than [device_id]. *)
Definition hostname_owned_by_other (self : Repo.t)
    (device_id : UUID) (h : option string) : Prop :=
  ∃ other d, other ≠ device_id ∧ Repo._devices self !! other = Some d ∧ Device.hostname d = h.

Definition ip_owned_by_other (self : Repo.t)
    (device_id : UUID) (s : string) : Prop :=
  ∃ other d, other ≠ device_id ∧ Repo._devices self !! other = Some d ∧ ip_key d = s.

(** The device that a successful [update] stores: the existing one overlaid
    with the fields that were set and the new timestamp. *)
Definition updated_device (now : datetime) (existing : Device.t)
    (update_data : DeviceUpdate.t) : Device.t :=
  model_copy existing (Updates.set_updated_at now (model_dump_exclude_unset update_data)).

(** The device that [add] stores when the constructor accepts the payload:
    the payload's fields, the two strings trimmed. *)
Definition added_device (uuid4 : UUID) (now_created now_updated : datetime)
    (device_data : DeviceCreate.t) : Device.t :=
  Device.mk uuid4 (Some (strip_whitespace (DeviceCreate.hostname device_data)))
    (Some (DeviceCreate.management_ip device_data))
    (Some (DeviceCreate.platform device_data)) (Some (DeviceCreate.role device_data))
    (Some (strip_whitespace (DeviceCreate.site device_data))) now_created now_updated.

(** The outcome of the two duplicate checks of [update]: the value that is
    reported, if any. *)
Definition hostname_conflict (self : Repo.t) (existing : Device.t)
    (update_data : DeviceUpdate.t) : option (option string) :=
  match DeviceUpdate.hostname update_data with
  | Some h =>
      if bool_decide (h ≠ Device.hostname existing)
         && Repo.contains h (Repo._hostname_index self)
      then Some h else None
  | None => None
  end.

Definition ip_conflict (self : Repo.t) (existing : Device.t)
    (update_data : DeviceUpdate.t) : option string :=
  match DeviceUpdate.management_ip update_data with
  | Some ip =>
      if bool_decide (str_value ip ≠ str_value (Device.management_ip existing))
         && Repo.contains (str_value ip) (Repo._ip_index self)
      then Some (str_value ip) else None
  | None => None
  end.

(** An index after the key of [device_id] went from [old] to [new]. *)
Definition reindex `{Countable K} (old new : K) (device_id : UUID)
    (index : gmap K UUID) : gmap K UUID :=
  if bool_decide (new ≠ old) then <[new := device_id]> (delete old index) else index.

(** The filter of the contract, in the words of the specification: a supplied
    criterion must equal the field, an omitted one matches everything. The
    field is what the device has: the value of its platform or role, or its
    site, if it has one. *)
Definition criterion_met (criterion : option string) (field_value : option string) : Prop :=
  match criterion with
  | Some wanted => field_value = Some wanted
  | None => True
  end.

Definition matches_criteria (platform role site : option string) (d : Device.t) : Prop :=
  criterion_met platform (DevicePlatform_value <$> Device.platform d) ∧
  criterion_met role (DeviceRole_value <$> Device.role d) ∧
  criterion_met site (Device.site d).

#[global] Instance criterion_met_dec c v : Decision (criterion_met c v).
Proof. destruct c; simpl; apply _. Defined.

#[global] Instance matches_criteria_dec p r s d : Decision (matches_criteria p r s d).
Proof. unfold matches_criteria; apply _. Defined.

(** Every stored device has a platform and a role, as the [Device] model
    declares. *)
Definition platform_and_role_set (devices : list Device.t) : Prop :=
  ∀ d, d ∈ devices → is_Some (Device.platform d) ∧ is_Some (Device.role d).

(** *** Sequences of mutating calls *)

Inductive Call : Type :=
| CallAdd (uuid4 : UUID) (now_created now_updated : datetime) (device_data : DeviceCreate.t)
| CallUpdate (now : datetime) (device_id : UUID) (update_data : DeviceUpdate.t)
| CallDelete (device_id : UUID).

(** The repository after a call, whether the call returned or raised. *)
Definition run_call (c : Call) (self : Repo.t) : Repo.t :=
  match c with
  | CallAdd uuid4 now_created now_updated device_data =>
      snd (Repo.add uuid4 now_created now_updated device_data self)
  | CallUpdate now device_id update_data => snd (Repo.update now device_id update_data self)
  | CallDelete device_id => snd (Repo.delete device_id self)
  end.

Definition run_calls (cs : list Call) (self : Repo.t)
    : Repo.t :=
  fold_left (λ s c, run_call c s) cs self.

(** What is assumed of a call: payloads are instances of their schemas, and
    [uuid4()] hands out an identity that is not in use. *)
Definition call_ok (c : Call) (self : Repo.t) : Prop :=
  match c with
  | CallAdd uuid4 _ _ device_data =>
      Repo._devices self !! uuid4 = None ∧ DeviceCreate.valid device_data
  | CallUpdate _ _ update_data => DeviceUpdate.valid update_data
  | CallDelete _ => True
  end.

(** States reachable from the empty repository by calls that satisfy [P]. *)
Inductive reachable_by (P : Call → Prop) : Repo.t → Prop :=
| reachable_init : reachable_by P Repo.__init__
| reachable_call c self :
    reachable_by P self → call_ok c self → P c → reachable_by P (run_call c self).

Definition reachable : Repo.t → Prop := reachable_by (λ _, True).

(** Every call of a sequence meets [call_ok] and [P] in the state it runs in. *)
Fixpoint calls_ok (P : Call → Prop) (cs : list Call) (self : Repo.t) : Prop :=
  match cs with
  | [] => True
  | c :: rest => call_ok c self ∧ P c ∧ calls_ok P rest (run_call c self)
  end.

(** An [add] whose hostname is stored as given: the constructor's trimming
    leaves it unchanged. *)
Definition add_hostname_trimmed (c : Call) : Prop :=
  match c with
  | CallAdd _ _ _ device_data =>
      strip_whitespace (DeviceCreate.hostname device_data) = DeviceCreate.hostname device_data
  | _ => True
  end.

(** ** Concrete payloads and call sequences *)

Definition ip_10_0_0_1 : IPvAnyAddress := IPv4Address 0x0A000001.
Definition ip_10_0_0_2 : IPvAnyAddress := IPv4Address 0x0A000002.

(** The sample device of the unit tests. *)
Definition spine1 : DeviceCreate.t :=
  DeviceCreate.mk "spine1" ip_10_0_0_1 EOS SPINE "dc1".

Definition leaf1 : DeviceCreate.t :=
  DeviceCreate.mk "leaf1" ip_10_0_0_2 NXOS LEAF "dc1".

(** Another address, and the hostname of [spine1] followed by a space. *)
Definition spine1_trailing_space : DeviceCreate.t :=
  DeviceCreate.mk "spine1 " ip_10_0_0_2 EOS SPINE "dc1".

(** A hostname made of spaces only: two characters, so within the length
    bounds of both payload schemas. *)
Definition blank_hostname : DeviceCreate.t :=
  DeviceCreate.mk "  " ip_10_0_0_1 EOS SPINE "dc1".

(** U+00A0, the no-break space, in UTF-8. *)
Definition no_break_space : string :=
  String (ascii_of_N 0xC2) (String (ascii_of_N 0xA0) "").

(** A hostname that is one no-break space, and the hostname of [spine1]
    followed by one. *)
Definition no_break_space_hostname : DeviceCreate.t :=
  DeviceCreate.mk no_break_space ip_10_0_0_1 EOS SPINE "dc1".

Definition spine1_trailing_no_break_space : DeviceCreate.t :=
  DeviceCreate.mk ("spine1" ++ no_break_space) ip_10_0_0_2 EOS SPINE "dc1".

(** [DeviceUpdate()], [DeviceUpdate(site=s)], [DeviceUpdate(hostname=h)],
    [DeviceUpdate(management_ip=ip)] and [DeviceUpdate(platform=None)]. *)
Definition nothing_set : DeviceUpdate.t := DeviceUpdate.mk None None None None None.

Definition set_site (s : string) : DeviceUpdate.t :=
  DeviceUpdate.mk None None None None (Some (Some s)).

Definition set_hostname (h : string) : DeviceUpdate.t :=
  DeviceUpdate.mk (Some (Some h)) None None None None.

Definition set_management_ip (ip : IPvAnyAddress) : DeviceUpdate.t :=
  DeviceUpdate.mk None (Some (Some ip)) None None None.

Definition platform_set_to_None : DeviceUpdate.t :=
  DeviceUpdate.mk None None (Some None) None None.

Definition role_set_to_None : DeviceUpdate.t :=
  DeviceUpdate.mk None None None (Some None) None.

(** One device, then two. *)
Definition one_device : Repo.t :=
  run_calls [CallAdd 1 1000 1000 spine1] Repo.__init__.

Definition two_devices : Repo.t :=
  run_calls [CallAdd 1 1000 1000 spine1; CallAdd 2 2000 2000 leaf1] Repo.__init__.

(** [spine1], then a second device whose hostname differs from it by a
    trailing space only. *)
Definition whitespace_calls : list Call :=
  [CallAdd 1 1000 1000 spine1; CallAdd 2 2000 2000 spine1_trailing_space].

(** The same two devices, then the first renamed: the second device has the
    hostname of [spine1] and no entry in the hostname index. *)
Definition rename_calls : list Call :=
  whitespace_calls ++ [CallUpdate 3000 1 (set_hostname "x")].



(** [spine1], with its platform, and with its role, set to [None]. *)
Definition platform_None_calls : list Call :=
  [CallAdd 1 1000 1000 spine1; CallUpdate 2000 1 platform_set_to_None].

Definition role_None_calls : list Call :=
  [CallAdd 1 1000 1000 spine1; CallUpdate 2000 1 role_set_to_None].

(** ** The rest of the models and of the exceptions *)

(** [list(DevicePlatform)] and [list(DeviceRole)]: the members in the order
    of their definition. *)
Definition DevicePlatform_members : list DevicePlatform :=
  [IOS_XE; IOS_XR; NXOS; EOS; JUNOS].

Definition DeviceRole_members : list DeviceRole :=
  [SPINE; LEAF; BORDER; CORE; ACCESS; WAN].

(** [DevicePlatform(value)] and [DeviceRole(value)]: the member that has the
    value; [None] stands for the [ValueError] of an unknown value. *)
Definition DevicePlatform_of_value (value : string) : option DevicePlatform :=
  List.find (λ member, bool_decide (DevicePlatform_value member = value))
    DevicePlatform_members.

Definition DeviceRole_of_value (value : string) : option DeviceRole :=
  List.find (λ member, bool_decide (DeviceRole_value member = value))
    DeviceRole_members.


(** Every stored device sits under its own identity, and a hostname or a
    site that it has is within the length bounds of the models. *)
Definition store_well_formed (self : Repo.t) : Prop :=
  ∀ device_id d, Repo._devices self !! device_id = Some d →
    Device.id d = device_id ∧
    (∀ h, Device.hostname d = Some h → length_ok 1 253 h = true) ∧
    (∀ s, Device.site d = Some s → length_ok 1 100 s = true).

(** The IP index knows every stored device: it maps the canonical text of
    its address to the identity it is stored under. *)
Definition ip_indexed (self : Repo.t) : Prop :=
  ∀ device_id d, Repo._devices self !! device_id = Some d →
    Repo._ip_index self !! ip_key d = Some device_id.

(** A payload that sets fields, and sets them to what the device has. *)
Definition sets_current_values (existing : Device.t) (update_data : DeviceUpdate.t) : Prop :=
  Updates.is_empty (model_dump_exclude_unset update_data) = false ∧
  (∀ h, DeviceUpdate.hostname update_data = Some h → h = Device.hostname existing) ∧
  (∀ ip, DeviceUpdate.management_ip update_data = Some ip →
         ip = Device.management_ip existing) ∧
  (∀ p, DeviceUpdate.platform update_data = Some p → p = Device.platform existing) ∧
  (∀ r, DeviceUpdate.role update_data = Some r → r = Device.role existing) ∧
  (∀ s, DeviceUpdate.site update_data = Some s → s = Device.site existing).

(** A device with another [updated_at]. *)
Definition with_updated_at (now : datetime) (d : Device.t) : Device.t :=
  Device.mk (Device.id d) (Device.hostname d) (Device.management_ip d)
    (Device.platform d) (Device.role d) (Device.site d) (Device.created_at d) now.

(** Repositories that are not in lockstep: a stored device without index
    entries, and one with its hostname entry only. *)
Definition spine1_device : Device.t :=
  Device.mk 1 (Some "spine1") (Some ip_10_0_0_1) (Some EOS) (Some SPINE) (Some "dc1") 1000 1000.

Definition store_only : Repo.t := Repo.mk {[1%N := spine1_device]} ∅ ∅.

Definition no_ip_entry : Repo.t :=
  Repo.mk {[1%N := spine1_device]} {[Some "spine1" := 1%N]} ∅.

(** * Properties *)

(** ** Running the methods *)

(** Unfolds the monadic plumbing of a method applied to a repository. *)
Ltac run_method :=
  unfold mbind, mret, Repo.M_bind, Repo.M_ret, Repo.raise, Repo.attr, Repo.lift,
    Repo.devices_setitem, Repo.hostname_index_setitem, Repo.ip_index_setitem,
    Repo.devices_delitem, Repo.hostname_index_delitem, Repo.ip_index_delitem; simpl.

Lemma contains_true `{Countable K} {V} (k : K) (d : gmap K V) :
  Repo.contains k d = true ↔ is_Some (d !! k).
Proof. unfold Repo.contains. destruct (d !! k) as [v|]; split; by intros Hk. Qed.

Lemma contains_false `{Countable K} {V} (k : K) (d : gmap K V) :
  Repo.contains k d = false ↔ d !! k = None.
Proof. unfold Repo.contains. destruct (d !! k); split; done. Qed.

(** [add], as one case analysis on the repository. *)
Lemma add_unfold uuid4 now_created now_updated device_data self :
  Repo.add uuid4 now_created now_updated device_data self =
  if Repo.contains (Some (DeviceCreate.hostname device_data)) (Repo._hostname_index self)
  then (Raise (DuplicateDeviceError "hostname" (Some (DeviceCreate.hostname device_data))), self)
  else if Repo.contains (str (DeviceCreate.management_ip device_data)) (Repo._ip_index self)
  then (Raise (DuplicateDeviceError "management_ip"
                 (Some (str (DeviceCreate.management_ip device_data)))), self)
  else match Device_init uuid4 now_created now_updated
               (DeviceCreate.hostname device_data) (DeviceCreate.management_ip device_data)
               (DeviceCreate.platform device_data) (DeviceCreate.role device_data)
               (DeviceCreate.site device_data) with
       | Raise e => (Raise e, self)
       | Return device =>
           (Return device,
            Repo.mk (<[Device.id device := device]> (Repo._devices self))
              (<[Device.hostname device := Device.id device]> (Repo._hostname_index self))
              (<[ip_key device := Device.id device]> (Repo._ip_index self)))
       end.
Proof.
  unfold Repo.add. run_method.
  destruct (Repo.contains _ (Repo._hostname_index self)); [done|].
  destruct (Repo.contains _ (Repo._ip_index self)); [done|].
  by destruct (Device_init _ _ _ _ _ _ _ _).
Qed.

(** The constructor either rejects a hostname or a site whose trimmed form is
    out of bounds, or builds the device from the trimmed strings. *)
Lemma Device_init_ok uuid4 now_created now_updated hostname ip platform role site :
  length_ok 1 253 (strip_whitespace hostname) = true →
  length_ok 1 100 (strip_whitespace site) = true →
  Device_init uuid4 now_created now_updated hostname ip platform role site
  = Return (Device.mk uuid4 (Some (strip_whitespace hostname)) (Some ip) (Some platform)
              (Some role) (Some (strip_whitespace site)) now_created now_updated).
Proof. intros Hh Hs. unfold Device_init. by rewrite Hh, Hs. Qed.

Lemma Device_init_inv uuid4 now_created now_updated hostname ip platform role site d :
  Device_init uuid4 now_created now_updated hostname ip platform role site = Return d →
  length_ok 1 253 (strip_whitespace hostname) = true ∧
  length_ok 1 100 (strip_whitespace site) = true ∧
  d = Device.mk uuid4 (Some (strip_whitespace hostname)) (Some ip) (Some platform)
        (Some role) (Some (strip_whitespace site)) now_created now_updated.
Proof.
  unfold Device_init.
  destruct (length_ok 1 253 (strip_whitespace hostname)); simpl; [|done].
  destruct (length_ok 1 100 (strip_whitespace site)); simpl; [|done].
  by intros [= <-].
Qed.

(** What the constructor raises is a [ValidationError]. *)
Lemma Device_init_raises uuid4 now_created now_updated hostname ip platform role site e :
  Device_init uuid4 now_created now_updated hostname ip platform role site = Raise e →
  ∃ locs, e = ValidationError locs ∧ locs ≠ [].
Proof.
  unfold Device_init.
  destruct (length_ok 1 253 (strip_whitespace hostname));
    destruct (length_ok 1 100 (strip_whitespace site)); simpl; [done|..];
    intros [= <-]; eauto.
Qed.

(** [update] when the identity is unknown, and when the payload sets nothing. *)
Lemma update_absent now device_id update_data self :
  Repo._devices self !! device_id = None →
  Repo.update now device_id update_data self = (Return None, self).
Proof. intros Hd. unfold Repo.update. run_method. by rewrite Hd. Qed.

Lemma update_nothing_set now device_id update_data self existing :
  Repo._devices self !! device_id = Some existing →
  Updates.is_empty (model_dump_exclude_unset update_data) = true →
  Repo.update now device_id update_data self = (Return (Some existing), self).
Proof. intros Hd He. unfold Repo.update. run_method. by rewrite Hd, He. Qed.

(** [update] of a stored device with a payload that sets something, as one
    case analysis: the two duplicate checks, then the two index moves (each
    of which lets a [KeyError] through when the old key is missing), then the
    store. *)
Lemma update_unfold now device_id update_data self existing :
  Repo._devices self !! device_id = Some existing →
  Updates.is_empty (model_dump_exclude_unset update_data) = false →
  Repo.update now device_id update_data self =
  match hostname_conflict self existing update_data with
  | Some h => (Raise (DuplicateDeviceError "hostname" h), self)
  | None =>
  match ip_conflict self existing update_data with
  | Some s => (Raise (DuplicateDeviceError "management_ip" (Some s)), self)
  | None =>
      let d := updated_device now existing update_data in
      if bool_decide (Device.hostname d ≠ Device.hostname existing)
         && negb (Repo.contains (Device.hostname existing) (Repo._hostname_index self))
      then (Raise KeyError, self)
      else
        let hostname_index :=
          reindex (Device.hostname existing) (Device.hostname d) device_id
            (Repo._hostname_index self) in
        if bool_decide (ip_key d ≠ ip_key existing)
           && negb (Repo.contains (ip_key existing) (Repo._ip_index self))
        then (Raise KeyError,
              Repo.mk (Repo._devices self) hostname_index (Repo._ip_index self))
        else (Return (Some d),
              Repo.mk (<[device_id := d]> (Repo._devices self)) hostname_index
                (reindex (ip_key existing) (ip_key d) device_id (Repo._ip_index self)))
  end
  end.
Proof.
  intros Hd He. unfold Repo.update. run_method. rewrite Hd, He.
  unfold hostname_conflict, ip_conflict, updated_device, reindex, ip_key,
    model_copy, model_dump_exclude_unset; simpl.
  destruct self as [devs hidx iidx]; simpl.
  destruct (DeviceUpdate.hostname update_data) as [h|],
    (DeviceUpdate.management_ip update_data) as [ip|]; simpl;
    repeat (case_match; simpl in *; try done; simplify_eq).
  all: done.
Qed.

(** [delete], as one case analysis. *)
Lemma delete_unfold device_id self :
  Repo.delete device_id self =
  match Repo._devices self !! device_id with
  | None => (Return false, self)
  | Some device =>
      let devices := delete device_id (Repo._devices self) in
      if negb (Repo.contains (Device.hostname device) (Repo._hostname_index self))
      then (Raise KeyError, Repo.mk devices (Repo._hostname_index self) (Repo._ip_index self))
      else
        let hostname_index := delete (Device.hostname device) (Repo._hostname_index self) in
        if negb (Repo.contains (ip_key device) (Repo._ip_index self))
        then (Raise KeyError, Repo.mk devices hostname_index (Repo._ip_index self))
        else (Return true,
              Repo.mk devices hostname_index (delete (ip_key device) (Repo._ip_index self)))
  end.
Proof.
  unfold Repo.delete. run_method.
  destruct (Repo._devices self !! device_id) as [device|] eqn:Hd; [|done].
  unfold Repo.contains at 1. rewrite Hd. simpl. unfold ip_key.
  destruct (Repo.contains (Device.hostname device) _); simpl; [|done].
  by destruct (Repo.contains (str_value _) _).
Qed.

(** ** The indexes follow the store *)

Section index.
Context `{Countable K}.
Variable key : Device.t → K.

Lemma index_ok_empty : index_ok key ∅ ∅.
Proof.
  intros k i. rewrite lookup_empty. split; [done|].
  intros (d & Hd & _). by rewrite lookup_empty in Hd.
Qed.

(** Keys are owned by one device only. *)
Lemma index_ok_unique devices index id1 id2 d1 d2 :
  index_ok key devices index →
  devices !! id1 = Some d1 → devices !! id2 = Some d2 →
  key d1 = key d2 → id1 = id2.
Proof.
  intros Hok H1 H2 Hk.
  assert (index !! key d1 = Some id1) as E1 by (apply Hok; eauto).
  assert (index !! key d1 = Some id2) as E2 by (apply Hok; eauto).
  congruence.
Qed.

Lemma index_ok_insert devices index device_id d :
  index_ok key devices index →
  devices !! device_id = None →
  index !! key d = None →
  index_ok key (<[device_id := d]> devices) (<[key d := device_id]> index).
Proof.
  intros Hok Hfresh Hfree k i. split.
  - rewrite lookup_insert. case_decide as Hk.
    + intros [= <-]. exists d. by rewrite lookup_insert_eq.
    + intros Hi. apply Hok in Hi as (d' & Hd' & Hkd').
      exists d'. split; [|done].
      rewrite lookup_insert_ne; [done|]. intros <-. congruence.
  - intros (d' & Hd' & Hkd'). rewrite lookup_insert in Hd'.
    case_decide as Hi.
    + simplify_eq. by rewrite lookup_insert_eq.
    + assert (index !! k = Some i) as Hidx by (apply Hok; eauto).
      rewrite lookup_insert_ne; [done|]. intros <-. congruence.
Qed.

Lemma index_ok_delete devices index device_id d :
  index_ok key devices index →
  devices !! device_id = Some d →
  index_ok key (delete device_id devices) (delete (key d) index).
Proof.
  intros Hok Hd k i.
  assert (index !! key d = Some device_id) as Hown by (apply Hok; eauto).
  split.
  - rewrite lookup_delete. case_decide as Hk; [done|].
    intros Hi. pose proof Hi as Hi'. apply Hok in Hi' as (d' & Hd' & Hkd').
    exists d'. split; [|done].
    rewrite lookup_delete_ne; [done|]. intros <-. simplify_eq.
  - intros (d' & Hd' & Hkd'). rewrite lookup_delete in Hd'.
    case_decide as Hi; [done|].
    assert (index !! k = Some i) as Hidx by (apply Hok; eauto).
    rewrite lookup_delete_ne; [done|]. intros Heq. subst k. congruence.
Qed.

Lemma index_ok_reindex devices index device_id existing updated :
  index_ok key devices index →
  devices !! device_id = Some existing →
  (key updated ≠ key existing → index !! key updated = None) →
  index_ok key (<[device_id := updated]> devices)
    (reindex (key existing) (key updated) device_id index).
Proof.
  intros Hok Hd Hfree k i.
  assert (index !! key existing = Some device_id) as Hown by (apply Hok; eauto).
  unfold reindex. case_bool_decide as Hchg.
  - specialize (Hfree Hchg). split.
    + rewrite lookup_insert. case_decide as Hk.
      * intros [= <-]. exists updated. by rewrite lookup_insert_eq.
      * rewrite lookup_delete. case_decide as Hk'; [done|].
        intros Hi. pose proof Hi as Hi'. apply Hok in Hi' as (d' & Hd' & Hkd').
        exists d'. split; [|done].
        rewrite lookup_insert_ne; [done|]. intros <-. simplify_eq.
    + intros (d' & Hd' & Hkd'). rewrite lookup_insert in Hd'.
      case_decide as Hi.
      * simplify_eq. by rewrite lookup_insert_eq.
      * assert (index !! k = Some i) as Hidx by (apply Hok; eauto).
        rewrite lookup_insert_ne by (intros <-; congruence).
        rewrite lookup_delete_ne by (intros <-; congruence). done.
  - split.
    + intros Hi. pose proof Hi as Hi'. apply Hok in Hi' as (d' & Hd' & Hkd').
      destruct (decide (i = device_id)) as [->|Hne].
      * exists updated. rewrite lookup_insert_eq. split; [done|]. congruence.
      * exists d'. by rewrite lookup_insert_ne.
    + intros (d' & Hd' & Hkd'). rewrite lookup_insert in Hd'.
      case_decide as Hi.
      * simplify_eq. by rewrite Hchg.
      * apply Hok; eauto.
Qed.
End index.

(** ** Lockstep is kept by the mutating methods *)

Lemma lockstep_init : lockstep Repo.__init__.
Proof.
  split; [|split]; simpl.
  - intros i d Hd. by rewrite lookup_empty in Hd.
  - apply index_ok_empty.
  - apply index_ok_empty.
Qed.

Lemma lockstep_unique self : lockstep self → unique_hostnames self ∧ unique_ips self.
Proof.
  intros (_ & Hh & Hi). split; intros id1 id2 d1 d2 H1 H2 Hk.
  - by eapply (index_ok_unique Device.hostname).
  - by eapply (index_ok_unique ip_key).
Qed.

(** In a repository in lockstep the index entries of a stored device exist. *)
Lemma lockstep_contains self device_id d :
  lockstep self → Repo._devices self !! device_id = Some d →
  Repo.contains (Device.hostname d) (Repo._hostname_index self) = true ∧
  Repo.contains (ip_key d) (Repo._ip_index self) = true.
Proof.
  intros (_ & Hh & Hi) Hd. split; apply contains_true; exists device_id.
  - apply Hh; eauto.
  - apply Hi; eauto.
Qed.

(** [add] keeps lockstep when the hostname that gets stored, the trimmed one,
    is free whenever the hostname that was checked is. *)
Lemma add_preserves_lockstep uuid4 now_created now_updated device_data self :
  lockstep self →
  Repo._devices self !! uuid4 = None →
  strip_whitespace (DeviceCreate.hostname device_data) = DeviceCreate.hostname device_data
  ∨ Repo._hostname_index self !! Some (strip_whitespace (DeviceCreate.hostname device_data))
    = None →
  lockstep (snd (Repo.add uuid4 now_created now_updated device_data self)).
Proof.
  intros Hl Hfresh Htrim. rewrite add_unfold.
  destruct (Repo.contains _ (Repo._hostname_index self)) eqn:Hh; [done|].
  destruct (Repo.contains _ (Repo._ip_index self)) eqn:Hip; [done|].
  destruct (Device_init _ _ _ _ _ _ _ _) as [d|e] eqn:Hinit; [|done].
  apply Device_init_inv in Hinit as (_ & _ & ->). simpl.
  apply contains_false in Hh, Hip.
  destruct Hl as (Hid & Hhi & Hii). split; [|split]; simpl.
  - intros i d. rewrite lookup_insert. case_decide; [|by auto].
    by intros [= <-].
  - apply (index_ok_insert Device.hostname); [done..|]. simpl.
    destruct Htrim as [-> | Hfree]; done.
  - by apply (index_ok_insert ip_key).
Qed.

Lemma hostname_conflict_none now self existing update_data :
  hostname_conflict self existing update_data = None →
  Device.hostname (updated_device now existing update_data) ≠ Device.hostname existing →
  Repo._hostname_index self !! Device.hostname (updated_device now existing update_data) = None.
Proof.
  unfold hostname_conflict, updated_device, model_copy, model_dump_exclude_unset. simpl.
  destruct (DeviceUpdate.hostname update_data) as [h|]; simpl; [|done].
  intros Hc Hne. rewrite bool_decide_true in Hc by done. simpl in Hc.
  apply contains_false. by destruct (Repo.contains h _).
Qed.

Lemma ip_conflict_none now self existing update_data :
  ip_conflict self existing update_data = None →
  ip_key (updated_device now existing update_data) ≠ ip_key existing →
  Repo._ip_index self !! ip_key (updated_device now existing update_data) = None.
Proof.
  unfold ip_conflict, ip_key, updated_device, model_copy, model_dump_exclude_unset. simpl.
  destruct (DeviceUpdate.management_ip update_data) as [ip|]; simpl; [|done].
  intros Hc Hne. rewrite bool_decide_true in Hc by done. simpl in Hc.
  apply contains_false. by destruct (Repo.contains (str_value ip) _).
Qed.

(** A successful [update] in a repository in lockstep: no [KeyError] is
    possible, and the result and the new state have this form. *)
Lemma update_lockstep_unfold now device_id update_data self existing :
  lockstep self →
  Repo._devices self !! device_id = Some existing →
  Updates.is_empty (model_dump_exclude_unset update_data) = false →
  hostname_conflict self existing update_data = None →
  ip_conflict self existing update_data = None →
  Repo.update now device_id update_data self =
  let d := updated_device now existing update_data in
  (Return (Some d),
   Repo.mk (<[device_id := d]> (Repo._devices self))
     (reindex (Device.hostname existing) (Device.hostname d) device_id
        (Repo._hostname_index self))
     (reindex (ip_key existing) (ip_key d) device_id (Repo._ip_index self))).
Proof.
  intros Hl Hd He Hhc Hic.
  rewrite (update_unfold _ _ _ _ existing) by done. rewrite Hhc, Hic. simpl.
  destruct (lockstep_contains _ _ _ Hl Hd) as [-> ->]. simpl.
  by rewrite !andb_false_r.
Qed.

Lemma update_preserves_lockstep now device_id update_data self :
  lockstep self → lockstep (snd (Repo.update now device_id update_data self)).
Proof.
  intros Hl.
  destruct (Repo._devices self !! device_id) as [existing|] eqn:Hd;
    [|by rewrite update_absent].
  destruct (Updates.is_empty (model_dump_exclude_unset update_data)) eqn:He;
    [by rewrite (update_nothing_set _ _ _ _ existing)|].
  destruct (hostname_conflict self existing update_data) as [h|] eqn:Hhc;
    [by rewrite (update_unfold _ _ _ _ existing), Hhc|].
  destruct (ip_conflict self existing update_data) as [s|] eqn:Hic;
    [by rewrite (update_unfold _ _ _ _ existing), Hhc, Hic|].
  rewrite (update_lockstep_unfold _ _ _ _ existing) by done. simpl.
  destruct Hl as (Hid & Hhi & Hii). split; [|split]; simpl.
  - intros i d. rewrite lookup_insert. case_decide; [|by auto].
    intros [= <-]. subst i. simpl. by apply Hid.
  - apply (index_ok_reindex Device.hostname); [done..|].
    by apply hostname_conflict_none.
  - apply (index_ok_reindex ip_key); [done..|].
    by apply ip_conflict_none.
Qed.

(** [delete] in a repository in lockstep. *)
Lemma delete_lockstep_unfold device_id self device :
  lockstep self →
  Repo._devices self !! device_id = Some device →
  Repo.delete device_id self =
  (Return true,
   Repo.mk (delete device_id (Repo._devices self))
     (delete (Device.hostname device) (Repo._hostname_index self))
     (delete (ip_key device) (Repo._ip_index self))).
Proof.
  intros Hl Hd. rewrite delete_unfold, Hd. simpl.
  by destruct (lockstep_contains _ _ _ Hl Hd) as [-> ->].
Qed.

Lemma delete_preserves_lockstep device_id self :
  lockstep self → lockstep (snd (Repo.delete device_id self)).
Proof.
  intros Hl.
  destruct (Repo._devices self !! device_id) as [device|] eqn:Hd;
    [|by rewrite delete_unfold, Hd].
  rewrite (delete_lockstep_unfold _ _ device) by done. simpl.
  destruct Hl as (Hid & Hhi & Hii). split; [|split]; simpl.
  - intros i d. rewrite lookup_delete. case_decide; [done|by auto].
  - by apply (index_ok_delete Device.hostname).
  - by apply (index_ok_delete ip_key).
Qed.

(** Lockstep is an invariant of every sequence of calls whose [add] payloads
    carry hostnames without surrounding whitespace. *)
Lemma lockstep_invariant_trimmed self :
  reachable_by add_hostname_trimmed self → lockstep self.
Proof.
  induction 1 as [|c self Hreach IH Hok Htrim]; [apply lockstep_init|].
  destruct c as [uuid4 t1 t2 device_data | now device_id update_data | device_id]; simpl.
  - destruct Hok as [Hfresh _]. apply add_preserves_lockstep; auto.
  - by apply update_preserves_lockstep.
  - by apply delete_preserves_lockstep.
Qed.

(** ** Trimming and lengths *)

Lemma append_cons c s t : String c s ++ t = String c (s ++ t).
Proof. reflexivity. Qed.

Lemma len_app s t : len (s ++ t) = (len s + len t)%nat.
Proof.
  induction s as [|c s IH]; [done|].
  rewrite append_cons. cbn [len]. rewrite IH. by destruct (_ && _).
Qed.

(** Induction on strings by their number of bytes, for the functions that
    read up to three bytes at a time. *)
Lemma string_length_ind (P : string → Prop) :
  (∀ s, (∀ t, (String.length t < String.length s)%nat → P t) → P s) → ∀ s, P s.
Proof.
  intros Hstep s. remember (String.length s) as n eqn:Hn. revert s Hn.
  induction n as [n IH] using lt_wf_ind. intros s ->.
  apply Hstep. intros t Hlt. by apply (IH (String.length t)).
Qed.

(** [lstrip] returns a suffix of its argument. *)
Lemma lstrip_suffix s : ∃ p, s = p ++ lstrip s.
Proof.
  induction s as [s IH] using string_length_ind.
  destruct s as [|c1 s1]; [by exists ""|].
  cbn [lstrip]. destruct (whitespace1 c1).
  { destruct (IH s1) as [p Hp]; [simpl; lia|].
    exists (String c1 p). rewrite append_cons. by rewrite <- Hp. }
  destruct s1 as [|c2 s2]; [by exists ""|].
  destruct (whitespace2 c1 c2).
  { destruct (IH s2) as [p Hp]; [simpl; lia|].
    exists (String c1 (String c2 p)). rewrite !append_cons. by rewrite <- Hp. }
  destruct s2 as [|c3 s3]; [by exists ""|].
  destruct (whitespace3 c1 c2 c3); [|by exists ""].
  destruct (IH s3) as [p Hp]; [simpl; lia|].
  exists (String c1 (String c2 (String c3 p))). rewrite !append_cons. by rewrite <- Hp.
Qed.

(** [rstrip] returns a prefix of its argument, and what it leaves out is
    whitespace. *)
Lemma rstrip_prefix s : ∃ t, s = rstrip s ++ t ∧ all_whitespace t = true.
Proof.
  induction s as [|c s IH]; [by exists ""|].
  cbn [rstrip]. destruct (all_whitespace (String c s)) eqn:Hall.
  - by exists (String c s).
  - destruct IH as (t & Ht & Hws). exists t. split; [|done].
    rewrite append_cons. by rewrite <- Ht.
Qed.

Lemma len_lstrip s : (len (lstrip s) ≤ len s)%nat.
Proof.
  destruct (lstrip_suffix s) as [p Hp]. rewrite Hp at 2. rewrite len_app. lia.
Qed.

Lemma len_rstrip s : (len (rstrip s) ≤ len s)%nat.
Proof.
  destruct (rstrip_prefix s) as (t & Ht & _). rewrite Ht at 2. rewrite len_app. lia.
Qed.

Lemma len_strip_whitespace s : (len (strip_whitespace s) ≤ len s)%nat.
Proof.
  unfold strip_whitespace. etrans; [apply len_lstrip|apply len_rstrip].
Qed.

(** Trimming keeps a string within its length bounds unless it is blank. *)
Lemma length_ok_strip hi s :
  length_ok 1 hi s = true → ¬ blank s →
  length_ok 1 hi (strip_whitespace s) = true.
Proof.
  unfold length_ok, blank. intros [_ Hhi%Nat.leb_le]%andb_true_iff Hne.
  pose proof (len_strip_whitespace s).
  apply andb_true_iff. split; apply Nat.leb_le; lia.
Qed.

(** A string whose trimmed form is within bounds that start at 1 is not
    blank. *)
Lemma length_ok_not_blank hi s :
  length_ok 1 hi (strip_whitespace s) = true → ¬ blank s.
Proof.
  unfold length_ok, blank. intros [Hlo%Nat.leb_le _]%andb_true_iff. lia.
Qed.

(** Whitespace followed by whitespace is whitespace. *)
Lemma all_whitespace_app s t :
  all_whitespace s = true → all_whitespace t = true → all_whitespace (s ++ t) = true.
Proof.
  induction s as [s IH] using string_length_ind. intros Hs Ht.
  destruct s as [|c1 s1]; [done|].
  rewrite append_cons. cbn [all_whitespace] in *. destruct (whitespace1 c1).
  { apply IH; [simpl; lia|done..]. }
  destruct s1 as [|c2 s2]; [done|].
  rewrite append_cons. destruct (whitespace2 c1 c2).
  { apply IH; [simpl; lia|done..]. }
  destruct s2 as [|c3 s3]; [done|].
  rewrite append_cons. destruct (whitespace3 c1 c2 c3); [|done].
  apply IH; [simpl; lia|done..].
Qed.

Lemma lstrip_idemp s : lstrip (lstrip s) = lstrip s.
Proof.
  induction s as [s IH] using string_length_ind.
  destruct s as [|c1 s1]; [done|].
  cbn [lstrip]. destruct (whitespace1 c1) eqn:H1.
  { apply IH. simpl; lia. }
  destruct s1 as [|c2 s2]; [cbn [lstrip]; by rewrite H1|].
  destruct (whitespace2 c1 c2) eqn:H2.
  { apply IH. simpl; lia. }
  destruct s2 as [|c3 s3]; [cbn [lstrip]; by rewrite H1, H2|].
  destruct (whitespace3 c1 c2 c3) eqn:H3.
  { apply IH. simpl; lia. }
  cbn [lstrip]. by rewrite H1, H2, H3.
Qed.

Lemma rstrip_idemp s : rstrip (rstrip s) = rstrip s.
Proof.
  induction s as [|c s IH]; [done|].
  cbn [rstrip]. destruct (all_whitespace (String c s)) eqn:Hall; [done|].
  cbn [rstrip]. rewrite IH.
  destruct (all_whitespace (String c (rstrip s))) eqn:Hall'; [|done].
  destruct (rstrip_prefix s) as (t & Ht & Hws).
  rewrite Ht, <- append_cons in Hall.
  by rewrite all_whitespace_app in Hall.
Qed.

(** A string that [rstrip] leaves alone has tails that it leaves alone. *)
Lemma rstrip_fixed_tail c s : rstrip (String c s) = String c s → rstrip s = s.
Proof.
  cbn [rstrip]. destruct (all_whitespace (String c s)); [done|]. by intros [= ->].
Qed.

Lemma rstrip_fixed_lstrip s : rstrip s = s → rstrip (lstrip s) = lstrip s.
Proof.
  induction s as [s IH] using string_length_ind. intros Hfix.
  destruct s as [|c1 s1]; [done|].
  pose proof (rstrip_fixed_tail _ _ Hfix) as Hfix1.
  cbn [lstrip]. destruct (whitespace1 c1).
  { apply IH; [simpl; lia|done]. }
  destruct s1 as [|c2 s2]; [done|].
  pose proof (rstrip_fixed_tail _ _ Hfix1) as Hfix2.
  destruct (whitespace2 c1 c2).
  { apply IH; [simpl; lia|done]. }
  destruct s2 as [|c3 s3]; [done|].
  pose proof (rstrip_fixed_tail _ _ Hfix2) as Hfix3.
  destruct (whitespace3 c1 c2 c3); [|done].
  apply IH; [simpl; lia|done].
Qed.

Lemma strip_whitespace_idemp s :
  strip_whitespace (strip_whitespace s) = strip_whitespace s.
Proof.
  unfold strip_whitespace.
  rewrite (rstrip_fixed_lstrip (rstrip s)) by apply rstrip_idemp.
  apply lstrip_idemp.
Qed.

(** ** Concrete repositories *)

Lemma reachable_by_run_calls P cs self :
  reachable_by P self → calls_ok P cs self → reachable_by P (run_calls cs self).
Proof.
  revert self. induction cs as [|c rest IH]; intros self Hreach Hok; [done|].
  destruct Hok as (Hc & HP & Hrest). simpl. apply IH; [|done].
  by apply reachable_call.
Qed.

(** Checks [calls_ok] of a concrete sequence of calls by evaluation. *)
Ltac check_calls :=
  vm_compute; repeat split; try congruence; try (intros ? [= <-]; reflexivity).

Lemma one_device_lockstep : lockstep one_device.
Proof.
  apply lockstep_invariant_trimmed, reachable_by_run_calls; [apply reachable_init|].
  vm_compute. repeat split.
Qed.

Lemma two_devices_lockstep : lockstep two_devices.
Proof.
  apply lockstep_invariant_trimmed, reachable_by_run_calls; [apply reachable_init|].
  vm_compute. repeat split.
Qed.

(** ** Duplicate keys on [add] *)

(** C3. If the payload's hostname is in the hostname index, [add] raises
    [DuplicateDeviceError] on field [hostname] with that value and the
    repository is unchanged; otherwise, if the payload's canonical IP text is
    in the IP index, it raises on field [management_ip] with the canonical
    text, again without mutation. The hostname is checked first, so a payload
    duplicating both reports the hostname. *)
Theorem add_duplicate_raises uuid4 now_created now_updated device_data self :
  (is_Some (Repo._hostname_index self !! Some (DeviceCreate.hostname device_data)) →
   Repo.add uuid4 now_created now_updated device_data self
   = (Raise (DuplicateDeviceError "hostname" (Some (DeviceCreate.hostname device_data))),
      self))
  ∧
  (Repo._hostname_index self !! Some (DeviceCreate.hostname device_data) = None →
   is_Some (Repo._ip_index self !! str (DeviceCreate.management_ip device_data)) →
   Repo.add uuid4 now_created now_updated device_data self
   = (Raise (DuplicateDeviceError "management_ip"
               (Some (str (DeviceCreate.management_ip device_data)))), self)).
Proof.
  rewrite add_unfold. split.
  - intros Hh. apply contains_true in Hh. by rewrite Hh.
  - intros Hh Hip. apply contains_false in Hh. apply contains_true in Hip.
    by rewrite Hh, Hip.
Qed.

(** The scenario of the specification: after [spine1], a second [spine1]
    (whatever its address) reports the hostname, and a [spine2] on the same
    address reports ["10.0.0.1"]; the store still holds [spine1] only. *)
Lemma add_duplicate_raises_witness :
  Repo.add 2 2000 2000 spine1 one_device
  = (Raise (DuplicateDeviceError "hostname" (Some "spine1")), one_device)
  ∧ Repo.add 2 2000 2000 (DeviceCreate.mk "spine2" ip_10_0_0_1 EOS SPINE "dc1") one_device
    = (Raise (DuplicateDeviceError "management_ip" (Some "10.0.0.1")), one_device).
Proof.
  split.
  - apply (add_duplicate_raises 2 2000 2000 spine1 one_device).
    vm_compute. eauto.
  - apply (add_duplicate_raises 2 2000 2000
             (DeviceCreate.mk "spine2" ip_10_0_0_1 EOS SPINE "dc1") one_device).
    + vm_compute. reflexivity.
    + vm_compute. eauto.
Defined.

(** ** The update that sets nothing *)

(** C7. For a stored device, [update] with a payload that sets no field
    returns that very device, [updated_at] included, and leaves the
    repository as it was. *)
Theorem update_nothing_set_is_noop now device_id self existing :
  Repo._devices self !! device_id = Some existing →
  Repo.update now device_id nothing_set self = (Return (Some existing), self).
Proof. intros Hd. by apply update_nothing_set. Qed.

Lemma update_nothing_set_is_noop_witness :
  ∃ existing,
    Repo._devices one_device !! 1%N = Some existing ∧
    Repo.update 5000 1 nothing_set one_device = (Return (Some existing), one_device).
Proof.
  eexists. split; [vm_compute; reflexivity|].
  apply (update_nothing_set_is_noop 5000 1 one_device). vm_compute. reflexivity.
Defined.

(** ** Filtering *)

(** The loop returns, when it returns, [results] followed by the devices
    that match, in order. *)
Lemma filter_loop_returns platform role site devices results out :
  Repo.filter_loop platform role site devices results = Return out →
  out = (results ++ filter (matches_criteria platform role site) devices)%list.
Proof.
  revert results. induction devices as [|d rest IH]; intros results; simpl.
  - rewrite app_nil_r. congruence.
  - rewrite filter_cons. unfold Repo.value_differs.
    destruct (decide (matches_criteria platform role site d)) as [Hm|Hm];
      unfold matches_criteria, criterion_met in Hm;
      destruct d as [i h ip [dp|] [dr|] st c u];
      destruct platform as [p|], role as [r|], site as [s|]; simpl in *;
      repeat case_bool_decide; try done;
      try (intros Hout; apply IH in Hout; rewrite Hout; by rewrite <- ?app_assoc);
      try (destruct Hm as (?&?&?); simplify_eq; done);
      exfalso; apply Hm; repeat split; congruence.
Qed.

(** The loop returns when every device has a platform and a role. *)
Lemma filter_loop_typed platform role site devices results :
  platform_and_role_set devices →
  Repo.filter_loop platform role site devices results
  = Return (results ++ filter (matches_criteria platform role site) devices)%list.
Proof.
  intros Ht.
  destruct (Repo.filter_loop platform role site devices results) as [out|e] eqn:Hloop.
  { f_equal. by eapply filter_loop_returns. }
  exfalso. revert results Hloop.
  induction devices as [|d rest IH]; intros results; simpl; [done|].
  destruct (Ht d) as [[dp Hp] [dr Hr]]; [by left|]. rewrite Hp, Hr.
  assert (platform_and_role_set rest) as Hrest
    by (intros d' Hd'; apply Ht; by right).
  unfold Repo.value_differs.
  destruct platform as [p|], role as [r|]; simpl;
    repeat case_match; eauto.
Qed.

(** What the loop raises is the [AttributeError] of a device without platform
    or role. *)
Lemma filter_loop_raises platform role site devices results e :
  Repo.filter_loop platform role site devices results = Raise e → e = AttributeError.
Proof.
  revert results. induction devices as [|d rest IH]; intros results; simpl; [done|].
  unfold Repo.value_differs.
  destruct platform as [p|], role as [r|], (Device.platform d), (Device.role d); simpl;
    repeat case_match; eauto; congruence.
Qed.

(** Without criteria nothing is read of a device, and every device matches. *)
Lemma filter_loop_no_criteria devices results :
  Repo.filter_loop None None None devices results = Return (results ++ devices)%list.
Proof.
  revert results. induction devices as [|d rest IH]; intros results; simpl.
  - by rewrite app_nil_r.
  - rewrite IH. by rewrite <- app_assoc.
Qed.

(** [filter_by] in a repository whose devices all have a platform and a
    role: it returns exactly the devices of [get_all()] that satisfy every
    supplied criterion, by equality on the platform value, the role value and
    the site, an omitted criterion matching everything. *)
Lemma filter_by_is_filter_of_get_all self platform role site :
  platform_and_role_set (Repo.values (Repo._devices self)) →
  ∃ all results,
    Repo.get_all self = (Return all, self) ∧
    Repo.filter_by platform role site self = (Return results, self) ∧
    results = filter (matches_criteria platform role site) all ∧
    (∀ d, d ∈ results ↔ d ∈ all ∧ matches_criteria platform role site d) ∧
    Repo.filter_by None None None self = (Return all, self).
Proof.
  intros Ht.
  exists (Repo.values (Repo._devices self)),
    (filter (matches_criteria platform role site) (Repo.values (Repo._devices self))).
  unfold Repo.get_all, Repo.filter_by. run_method.
  rewrite filter_loop_typed by done. rewrite filter_loop_no_criteria. simpl.
  split; [done|]. split; [done|]. split; [done|]. split; [|done].
  intros d. rewrite list_elem_of_filter. tauto.
Qed.

(** In such a repository, a platform string that is the value of no
    [DevicePlatform] member, or a role string that is the value of no
    [DeviceRole] member, makes [filter_by] return the empty list. *)
Lemma filter_by_unknown_word_matches_nothing self (word : string)
    (platform role site : option string) :
  platform_and_role_set (Repo.values (Repo._devices self)) →
  ((∀ p, DevicePlatform_value p ≠ word) →
   Repo.filter_by (Some word) role site self = (Return [], self)) ∧
  ((∀ r, DeviceRole_value r ≠ word) →
   Repo.filter_by platform (Some word) site self = (Return [], self)).
Proof.
  intros Ht. unfold Repo.filter_by. run_method. rewrite !filter_loop_typed by done. simpl.
  split; intros Hnone; do 2 f_equal;
    induction (Repo.values _) as [|d l IH]; try done;
    rewrite filter_cons; destruct (decide _) as [(Hp & Hr & Hs)|];
    try (apply IH; intros d' Hd'; apply Ht; by right);
    simpl in *; exfalso.
  - destruct (Device.platform d) as [dp|]; simplify_eq/=. by eapply Hnone.
  - destruct (Device.role d) as [dr|]; simplify_eq/=. by eapply Hnone.
Qed.

(** ** Reads *)

(** C9. [get_by_id], [get_by_hostname], [get_all] and [filter_by] leave the
    primary store and both indexes unchanged, whatever the repository and the
    arguments; the first three return normally, and so does [filter_by] when
    every stored device has a platform and a role (otherwise it returns or
    lets an [AttributeError] through, the repository unchanged all the same);
    an identity that is not stored and a hostname that is not indexed give
    [None]. *)
Theorem reads_leave_state_unchanged self device_id hostname platform role site :
  (∃ found, Repo.get_by_id device_id self = (Return found, self)) ∧
  (∃ found, Repo.get_by_hostname hostname self = (Return found, self)) ∧
  (∃ all, Repo.get_all self = (Return all, self)) ∧
  ((∃ results, Repo.filter_by platform role site self = (Return results, self)) ∨
   Repo.filter_by platform role site self = (Raise AttributeError, self)) ∧
  (platform_and_role_set (Repo.values (Repo._devices self)) →
   ∃ results, Repo.filter_by platform role site self = (Return results, self)) ∧
  (Repo._devices self !! device_id = None →
   Repo.get_by_id device_id self = (Return None, self)) ∧
  (Repo._hostname_index self !! hostname = None →
   Repo.get_by_hostname hostname self = (Return None, self)).
Proof.
  unfold Repo.get_by_id, Repo.get_by_hostname, Repo.get_all, Repo.filter_by.
  run_method. split; [eauto|]. split.
  { destruct (Repo._hostname_index self !! hostname); eauto. }
  split; [eauto|]. split.
  { destruct (Repo.filter_loop _ _ _ _ _) as [out|e] eqn:Hloop; [eauto|].
    right. by rewrite (filter_loop_raises _ _ _ _ _ _ Hloop). }
  split.
  { intros Ht. rewrite filter_loop_typed by done. eauto. }
  split; by intros ->.
Qed.

Lemma reads_leave_state_unchanged_witness :
  Repo.get_by_id 7 one_device = (Return None, one_device) ∧
  Repo.get_by_hostname (Some "nonexistent") one_device = (Return None, one_device) ∧
  ∃ results, Repo.filter_by (Some "eos") None None one_device = (Return results, one_device).
Proof.
  destruct (reads_leave_state_unchanged one_device 7 (Some "nonexistent")
              (Some "eos") None None)
    as (_ & _ & _ & _ & Hfilter & Hid & Hhost).
  split; [|split].
  - apply Hid. vm_compute. reflexivity.
  - apply Hhost. vm_compute. reflexivity.
  - apply Hfilter. intros d Hd. vm_compute in Hd.
    apply list_elem_of_singleton in Hd. subst d. simpl. eauto.
Defined.

(** C8. [filter_by] does not always return the devices of [get_all()] that
    satisfy the criteria: [update] stores a platform that the payload sets to
    [None], and then [filter_by] with a platform criterion lets the
    [AttributeError] of [device.platform.value] through, where the contract
    has it return the devices that match, here none. The same holds of the
    role. Without criteria the call returns the devices of [get_all()]. *)
Theorem filter_by_raises_on_platform_None :
  let self := run_calls platform_None_calls Repo.__init__ in
  let self' := run_calls role_None_calls Repo.__init__ in
  reachable self ∧ reachable self' ∧
  (∃ d, Repo.get_all self = (Return [d], self) ∧ Device.platform d = None ∧
        ¬ matches_criteria (Some "eos") None None d) ∧
  Repo.filter_by (Some "eos") None None self = (Raise AttributeError, self) ∧
  (∃ d, Repo.get_all self' = (Return [d], self') ∧ Device.role d = None ∧
        ¬ matches_criteria None (Some "spine") None d) ∧
  Repo.filter_by None (Some "spine") None self' = (Raise AttributeError, self') ∧
  Repo.filter_by None None None self = Repo.get_all self.
Proof.
  split; [|split].
  - apply reachable_by_run_calls; [apply reachable_init|].
    check_calls.
  - apply reachable_by_run_calls; [apply reachable_init|].
    check_calls.
  - split; [|split; [vm_compute; reflexivity|split; [|split; vm_compute; reflexivity]]].
    + eexists. split; [vm_compute; reflexivity|]. split; [reflexivity|].
      by intros (Hp & _ & _).
    + eexists. split; [vm_compute; reflexivity|]. split; [reflexivity|].
      by intros (_ & Hr & _).
Qed.

(** C10. A platform or role string that is the value of no member does not
    always make [filter_by] return the empty list: once [update] has stored a
    platform (a role) that the payload sets to [None], the call lets the
    [AttributeError] of [device.platform.value] ([device.role.value])
    through. *)
Theorem filter_by_unknown_word_raises_on_None :
  let self := run_calls platform_None_calls Repo.__init__ in
  let self' := run_calls role_None_calls Repo.__init__ in
  reachable self ∧ reachable self' ∧
  (∀ p, DevicePlatform_value p ≠ "cisco_ios") ∧
  Repo.filter_by (Some "cisco_ios") None None self = (Raise AttributeError, self) ∧
  (∀ r, DeviceRole_value r ≠ "router") ∧
  Repo.filter_by None (Some "router") None self' = (Raise AttributeError, self').
Proof.
  split; [|split].
  - apply reachable_by_run_calls; [apply reachable_init|].
    check_calls.
  - apply reachable_by_run_calls; [apply reachable_init|].
    check_calls.
  - split; [by intros []|]. split; [vm_compute; reflexivity|].
    split; [by intros []|]. vm_compute; reflexivity.
Qed.

(** ** The IP index knows every stored device *)

Lemma add_keeps_ip_indexed uuid4 now_created now_updated device_data self :
  ip_indexed self →
  ip_indexed (snd (Repo.add uuid4 now_created now_updated device_data self)).
Proof.
  intros Hj. rewrite add_unfold.
  destruct (Repo.contains _ (Repo._hostname_index self)); [done|].
  destruct (Repo.contains _ (Repo._ip_index self)) eqn:Hip; [done|].
  destruct (Device_init _ _ _ _ _ _ _ _) as [d|] eqn:Hinit; [|done].
  apply Device_init_inv in Hinit as (_ & _ & ->). apply contains_false in Hip.
  intros i d'. simpl. unfold ip_key at 1. simpl. rewrite lookup_insert.
  case_decide as Hi.
  - intros [= <-]. subst i. unfold ip_key. simpl. by rewrite lookup_insert_eq.
  - intros Hd'. pose proof (Hj _ _ Hd') as Hin.
    rewrite lookup_insert_ne; [done|]. intros Heq. unfold ip_key in *.
    simpl in Heq. congruence.
Qed.

Lemma update_keeps_ip_indexed now device_id update_data self :
  ip_indexed self →
  ip_indexed (snd (Repo.update now device_id update_data self)).
Proof.
  intros Hj.
  destruct (Repo._devices self !! device_id) as [existing|] eqn:Hd;
    [|by rewrite update_absent].
  destruct (Updates.is_empty (model_dump_exclude_unset update_data)) eqn:He;
    [by rewrite (update_nothing_set _ _ _ _ existing)|].
  rewrite (update_unfold _ _ _ _ existing) by done.
  destruct (hostname_conflict _ _ _); [done|].
  destruct (ip_conflict _ _ _) eqn:Hic; [done|]. cbv zeta.
  destruct (_ && _); [done|]. destruct (_ && _); [done|]. simpl.
  pose proof (Hj _ _ Hd) as Hown.
  pose proof (ip_conflict_none now _ _ _ Hic) as Hfree.
  set (d := updated_device now existing update_data) in *.
  intros i d'. simpl. rewrite lookup_insert. unfold reindex. case_decide as Hi.
  - intros [= <-]. subst i. case_bool_decide as Hchg.
    + by rewrite lookup_insert_eq.
    + by rewrite Hchg.
  - intros Hd'. pose proof (Hj _ _ Hd') as Hin. case_bool_decide as Hchg; [|done].
    rewrite lookup_insert_ne, lookup_delete_ne; [done| |].
    + intros Heq. rewrite Heq in Hown. congruence.
    + intros Heq. specialize (Hfree Hchg). rewrite Heq in Hfree. congruence.
Qed.

Lemma delete_keeps_ip_indexed device_id self :
  ip_indexed self → ip_indexed (snd (Repo.delete device_id self)).
Proof.
  intros Hj. rewrite delete_unfold.
  destruct (Repo._devices self !! device_id) as [device|] eqn:Hd; [|done]. cbv zeta.
  pose proof (Hj _ _ Hd) as Hown.
  assert (∀ i d, delete device_id (Repo._devices self) !! i = Some d →
                 i ≠ device_id ∧ Repo._devices self !! i = Some d) as Hsub.
  { intros i d. rewrite lookup_delete. by case_decide. }
  destruct (negb _); [intros i d [_ Hi]%Hsub; by apply Hj|].
  destruct (negb _); [intros i d [_ Hi]%Hsub; by apply Hj|].
  intros i d [Hne Hi]%Hsub. simpl. pose proof (Hj _ _ Hi) as Hin.
  rewrite lookup_delete_ne; [done|]. intros Heq. rewrite Heq in Hown. congruence.
Qed.

(** Whatever the calls that were made on the empty repository, the IP index
    maps the canonical address text of every stored device to its identity. *)
Lemma reachable_by_ip_indexed P self : reachable_by P self → ip_indexed self.
Proof.
  induction 1 as [|c self Hreach IH _ _].
  - intros i d Hd. simpl in Hd. by rewrite lookup_empty in Hd.
  - destruct c as [uuid4 t1 t2 device_data | now device_id update_data | device_id];
      simpl.
    + by apply add_keeps_ip_indexed.
    + by apply update_keeps_ip_indexed.
    + by apply delete_keeps_ip_indexed.
Qed.

(** ** Duplicate keys on [update] *)

Lemma hostname_set_not_empty update_data h :
  DeviceUpdate.hostname update_data = Some h →
  Updates.is_empty (model_dump_exclude_unset update_data) = false.
Proof. unfold Updates.is_empty, model_dump_exclude_unset. simpl. by intros ->. Qed.

Lemma management_ip_set_not_empty update_data ip :
  DeviceUpdate.management_ip update_data = Some ip →
  Updates.is_empty (model_dump_exclude_unset update_data) = false.
Proof.
  unfold Updates.is_empty, model_dump_exclude_unset. simpl. intros ->.
  by destruct (DeviceUpdate.hostname update_data).
Qed.

(** [update] of a stored device with a payload that sets something, in a
    repository in lockstep: a duplicate error without mutation, or the
    replacement of the device and of its index entries. *)
Lemma update_lockstep_cases now device_id update_data self existing :
  lockstep self →
  Repo._devices self !! device_id = Some existing →
  Updates.is_empty (model_dump_exclude_unset update_data) = false →
  Repo.update now device_id update_data self =
  match hostname_conflict self existing update_data with
  | Some h => (Raise (DuplicateDeviceError "hostname" h), self)
  | None =>
  match ip_conflict self existing update_data with
  | Some s => (Raise (DuplicateDeviceError "management_ip" (Some s)), self)
  | None =>
      let d := updated_device now existing update_data in
      (Return (Some d),
       Repo.mk (<[device_id := d]> (Repo._devices self))
         (reindex (Device.hostname existing) (Device.hostname d) device_id
            (Repo._hostname_index self))
         (reindex (ip_key existing) (ip_key d) device_id (Repo._ip_index self)))
  end
  end.
Proof.
  intros Hl Hd He.
  destruct (hostname_conflict self existing update_data) as [h|] eqn:Hhc;
    [by rewrite (update_unfold _ _ _ _ existing), Hhc|].
  destruct (ip_conflict self existing update_data) as [s|] eqn:Hic;
    [by rewrite (update_unfold _ _ _ _ existing), Hhc, Hic|].
  by apply update_lockstep_unfold.
Qed.

(** In lockstep, a hostname owned by another device is in the index and is
    not the device's own; the same for the canonical IP text. *)
Lemma owned_hostname_conflicts self device_id existing update_data h :
  lockstep self →
  Repo._devices self !! device_id = Some existing →
  DeviceUpdate.hostname update_data = Some h →
  hostname_owned_by_other self device_id h →
  hostname_conflict self existing update_data = Some h.
Proof.
  intros (_ & Hhi & _) Hd Hh (other & d & Hne & Hother & Hk).
  assert (Repo._hostname_index self !! h = Some other) as Hin by (apply Hhi; eauto).
  assert (h ≠ Device.hostname existing) as Hown.
  { intros ->. apply Hne. symmetry.
    by eapply (index_ok_unique Device.hostname). }
  unfold hostname_conflict. rewrite Hh, bool_decide_true by done.
  unfold Repo.contains. by rewrite Hin.
Qed.

Lemma owned_ip_conflicts self device_id existing update_data ip :
  lockstep self →
  Repo._devices self !! device_id = Some existing →
  DeviceUpdate.management_ip update_data = Some ip →
  ip_owned_by_other self device_id (str_value ip) →
  ip_conflict self existing update_data = Some (str_value ip).
Proof.
  intros (_ & _ & Hii) Hd Hip (other & d & Hne & Hother & Hk).
  assert (Repo._ip_index self !! str_value ip = Some other) as Hin by (apply Hii; eauto).
  assert (str_value ip ≠ ip_key existing) as Hown.
  { intros Heq. apply Hne. symmetry.
    eapply (index_ok_unique ip_key); [done..|]. congruence. }
  unfold ip_conflict. rewrite Hip. fold (ip_key existing).
  rewrite bool_decide_true by done. unfold Repo.contains. by rewrite Hin.
Qed.

(** In a repository in lockstep, for a stored device: an update payload that
    sets the hostname to a value owned by a different stored device makes
    [update] raise [DuplicateDeviceError] on field [hostname] and leaves the
    store and both indexes as they were; a payload that sets the management IP
    to an address whose canonical text is owned by a different stored device
    makes it raise [DuplicateDeviceError] without mutation too, on field
    [management_ip] unless the hostname check, which comes first, has fired;
    and a hostname or an IP equal to the device's own current value never
    raises a duplicate error on that field. *)
Lemma update_duplicate_raises now device_id update_data self existing :
  lockstep self →
  Repo._devices self !! device_id = Some existing →
  (∀ h, DeviceUpdate.hostname update_data = Some h →
        hostname_owned_by_other self device_id h →
        Repo.update now device_id update_data self
        = (Raise (DuplicateDeviceError "hostname" h), self))
  ∧
  (∀ ip, DeviceUpdate.management_ip update_data = Some ip →
         ip_owned_by_other self device_id (str_value ip) →
         (∃ field value, Repo.update now device_id update_data self
                         = (Raise (DuplicateDeviceError field value), self)) ∧
         ((∀ h, DeviceUpdate.hostname update_data = Some h →
                ¬ hostname_owned_by_other self device_id h) →
          Repo.update now device_id update_data self
          = (Raise (DuplicateDeviceError "management_ip" (Some (str_value ip))), self)))
  ∧
  (DeviceUpdate.hostname update_data = Some (Device.hostname existing) →
   ∀ value self', Repo.update now device_id update_data self
                  ≠ (Raise (DuplicateDeviceError "hostname" value), self'))
  ∧
  (∀ ip, DeviceUpdate.management_ip update_data = Some ip →
         str_value ip = ip_key existing →
         ∀ value self', Repo.update now device_id update_data self
                        ≠ (Raise (DuplicateDeviceError "management_ip" value), self')).
Proof.
  intros Hl Hd. split; [|split; [|split]].
  - intros h Hh Howned.
    rewrite (update_unfold _ _ _ _ existing) by eauto using hostname_set_not_empty.
    by rewrite (owned_hostname_conflicts _ device_id _ _ h).
  - intros ip Hip Howned.
    pose proof (owned_ip_conflicts _ _ _ _ _ Hl Hd Hip Howned) as Hic.
    rewrite (update_unfold _ _ _ _ existing) by eauto using management_ip_set_not_empty.
    rewrite Hic. split.
    + destruct (hostname_conflict self existing update_data); eauto.
    + intros Hfree.
      destruct (hostname_conflict self existing update_data) as [h|] eqn:Hhc; [|done].
      exfalso. unfold hostname_conflict in Hhc.
      destruct (DeviceUpdate.hostname update_data) as [h'|] eqn:Hh; [|done].
      destruct (bool_decide (h' ≠ Device.hostname existing)) eqn:Hne; [|done].
      destruct (Repo.contains h' _) eqn:Hin; [|done].
      apply bool_decide_eq_true in Hne. apply contains_true in Hin as [other Hin].
      destruct Hl as (_ & Hhi & _). apply Hhi in Hin as (d & Hother & Hk).
      apply (Hfree h' eq_refl). exists other, d. split; [|done].
      intros ->. congruence.
  - intros Hh value self'.
    rewrite (update_lockstep_cases _ _ _ _ existing)
      by eauto using hostname_set_not_empty.
    unfold hostname_conflict. rewrite Hh.
    rewrite bool_decide_false by (intros Hne; by apply Hne). simpl.
    by destruct (ip_conflict self existing update_data).
  - intros ip Hip Hown value self'.
    rewrite (update_lockstep_cases _ _ _ _ existing)
      by eauto using management_ip_set_not_empty.
    unfold ip_conflict. rewrite Hip. fold (ip_key existing).
    rewrite bool_decide_false by (intros Hne; by apply Hne). simpl.
    by destruct (hostname_conflict self existing update_data).
Qed.

(** Renaming [leaf1] to ["spine1"], or moving it to 10.0.0.1, is refused and
    changes nothing; renaming it to ["leaf1"] is no duplicate. *)
Example update_duplicate_raises_two_devices :
  Repo.update 3000 2 (set_hostname "spine1") two_devices
  = (Raise (DuplicateDeviceError "hostname" (Some "spine1")), two_devices)
  ∧ Repo.update 3000 2 (set_management_ip ip_10_0_0_1) two_devices
    = (Raise (DuplicateDeviceError "management_ip" (Some "10.0.0.1")), two_devices)
  ∧ (∀ value self', Repo.update 3000 2 (set_hostname "leaf1") two_devices
                    ≠ (Raise (DuplicateDeviceError "hostname" value), self')).
Proof.
  assert (Repo._devices two_devices !! 2%N
          = Some (Device.mk 2 (Some "leaf1") (Some ip_10_0_0_2) (Some NXOS) (Some LEAF)
                    (Some "dc1") 2000 2000)) as Hleaf
    by (vm_compute; reflexivity).
  assert (Repo._devices two_devices !! 1%N
          = Some (Device.mk 1 (Some "spine1") (Some ip_10_0_0_1) (Some EOS) (Some SPINE)
                    (Some "dc1") 1000 1000)) as Hspine
    by (vm_compute; reflexivity).
  split; [|split].
  - destruct (update_duplicate_raises 3000 2 (set_hostname "spine1") two_devices _
                two_devices_lockstep Hleaf) as (Hdup & _).
    apply Hdup; [reflexivity|].
    exists 1%N. eexists. split; [discriminate|]. split; [exact Hspine|reflexivity].
  - destruct (update_duplicate_raises 3000 2 (set_management_ip ip_10_0_0_1) two_devices _
                two_devices_lockstep Hleaf) as (_ & Hdup & _).
    apply (Hdup (Some ip_10_0_0_1)); [reflexivity| |discriminate].
    exists 1%N. eexists. split; [discriminate|]. split; [exact Hspine|reflexivity].
  - destruct (update_duplicate_raises 3000 2 (set_hostname "leaf1") two_devices _
                two_devices_lockstep Hleaf) as (_ & _ & Hown & _).
    apply Hown. reflexivity.
Qed.

(** Two parts of [update_duplicate_raises] need less than lockstep. Wherever the IP index
    knows every stored device, as it does in every repository reached from
    the empty one, an address whose canonical text is owned by a different
    stored device makes [update] raise a duplicate error without mutation;
    and in any repository a hostname or an address equal to the device's own
    never raises a duplicate error on that field. *)
Lemma update_duplicate_ip_raises now device_id update_data self existing ip :
  ip_indexed self →
  Repo._devices self !! device_id = Some existing →
  DeviceUpdate.management_ip update_data = Some ip →
  ip_owned_by_other self device_id (str_value ip) →
  ∃ field value,
    Repo.update now device_id update_data self
    = (Raise (DuplicateDeviceError field value), self).
Proof.
  intros Hj Hd Hip (other & d & Hne & Hother & Hk).
  pose proof (Hj _ _ Hother) as Hin. rewrite Hk in Hin.
  assert (str_value ip ≠ ip_key existing) as Hown.
  { intros Heq. pose proof (Hj _ _ Hd) as Hin'. rewrite <- Heq in Hin'. congruence. }
  rewrite (update_unfold _ _ _ _ existing) by eauto using management_ip_set_not_empty.
  destruct (hostname_conflict self existing update_data); [eauto|].
  unfold ip_conflict. rewrite Hip. fold (ip_key existing).
  rewrite bool_decide_true by done. unfold Repo.contains. rewrite Hin. simpl. eauto.
Qed.

Lemma update_own_value_no_duplicate now device_id update_data self existing :
  Repo._devices self !! device_id = Some existing →
  (DeviceUpdate.hostname update_data = Some (Device.hostname existing) →
   ∀ value self', Repo.update now device_id update_data self
                  ≠ (Raise (DuplicateDeviceError "hostname" value), self'))
  ∧
  (∀ ip, DeviceUpdate.management_ip update_data = Some ip →
         str_value ip = ip_key existing →
         ∀ value self', Repo.update now device_id update_data self
                        ≠ (Raise (DuplicateDeviceError "management_ip" value), self')).
Proof.
  intros Hd. split.
  - intros Hh value self'.
    rewrite (update_unfold _ _ _ _ existing) by eauto using hostname_set_not_empty.
    unfold hostname_conflict. rewrite Hh.
    rewrite bool_decide_false by (intros Hne; by apply Hne). simpl.
    destruct (ip_conflict self existing update_data); [done|]. cbv zeta.
    destruct (_ && _); [done|]. by destruct (_ && _).
  - intros ip Hip Hown value self'.
    rewrite (update_unfold _ _ _ _ existing) by eauto using management_ip_set_not_empty.
    destruct (hostname_conflict self existing update_data); [done|].
    unfold ip_conflict. rewrite Hip. fold (ip_key existing).
    rewrite bool_decide_false by (intros Hne; by apply Hne). simpl.
    destruct (_ && _); [done|]. by destruct (_ && _).
Qed.

(** C2. [update] does not always refuse a hostname that a different stored
    device owns. After [add] of ["spine1"], [add] of ["spine1 "] (a trailing
    space, another address) and the renaming of the first device to ["x"],
    all three calls returning normally, the second device has the hostname
    ["spine1"] and the hostname index has no entry for it; [update] then
    renames the first device back to ["spine1"] and returns it, where the
    contract has it fail with a duplicate on [hostname] and change nothing.
    The check of [update] reads the hostname index, which [add] and the first
    renaming have left without the second device. *)
Theorem update_accepts_owned_hostname :
  let self := run_calls rename_calls Repo.__init__ in
  reachable self ∧
  (∃ existing, Repo._devices self !! 1%N = Some existing) ∧
  hostname_owned_by_other self 1 (Some "spine1") ∧
  Repo._hostname_index self !! Some "spine1" = None ∧
  ∃ d self',
    Repo.update 4000 1 (set_hostname "spine1") self = (Return (Some d), self') ∧
    Device.hostname d = Some "spine1" ∧
    self' ≠ self ∧
    ¬ unique_hostnames self'.
Proof.
  set (self := run_calls rename_calls Repo.__init__).
  assert (Repo._devices self !! 2%N
          = Some (Device.mk 2 (Some "spine1") (Some ip_10_0_0_2) (Some EOS) (Some SPINE)
                    (Some "dc1") 2000 2000)) as H2
    by (vm_compute; reflexivity).
  split; [|split; [|split; [|split]]].
  - apply reachable_by_run_calls; [apply reachable_init|].
    check_calls.
  - eexists. vm_compute. reflexivity.
  - exists 2%N. eexists. split; [discriminate|]. split; [exact H2|reflexivity].
  - vm_compute. reflexivity.
  - do 2 eexists. split; [vm_compute; reflexivity|].
    split; [reflexivity|]. split; [discriminate|].
    intros Hu.
    assert (1%N = 2%N) as Heq; [|discriminate].
    eapply Hu; [| |]; [vm_compute; reflexivity..|reflexivity].
Qed.

(** ** The lockstep of the three containers *)

(** C1. The lockstep of the store and its indexes is not an invariant of the
    code: after [add] of ["spine1"] and [add] of ["spine1 "] (a trailing
    space, another address), both calls returning normally, the store holds
    two devices whose hostname is ["spine1"], the hostname index knows the
    second one only, and hostnames are no longer unique. The duplicate check
    reads the payload's hostname, the index is written under the constructed
    device's trimmed hostname. *)
Theorem lockstep_broken_by_untrimmed_hostname :
  let self := run_calls whitespace_calls Repo.__init__ in
  reachable self ∧
  (∃ d1 d2, Repo._devices self !! 1%N = Some d1 ∧ Repo._devices self !! 2%N = Some d2 ∧
            Device.hostname d1 = Some "spine1" ∧ Device.hostname d2 = Some "spine1") ∧
  Repo._hostname_index self !! Some "spine1" = Some 2%N ∧
  ¬ unique_hostnames self ∧
  ¬ lockstep self.
Proof.
  set (self := run_calls whitespace_calls Repo.__init__).
  assert (Repo._devices self !! 1%N
          = Some (Device.mk 1 (Some "spine1") (Some ip_10_0_0_1) (Some EOS) (Some SPINE)
                    (Some "dc1") 1000 1000)) as H1
    by (vm_compute; reflexivity).
  assert (Repo._devices self !! 2%N
          = Some (Device.mk 2 (Some "spine1") (Some ip_10_0_0_2) (Some EOS) (Some SPINE)
                    (Some "dc1") 2000 2000)) as H2
    by (vm_compute; reflexivity).
  assert (¬ unique_hostnames self) as Hdup.
  { intros Hu. by specialize (Hu _ _ _ _ H1 H2 eq_refl). }
  split; [|split; [|split; [|split]]].
  - apply reachable_by_run_calls; [apply reachable_init|].
    check_calls.
  - eauto 10.
  - vm_compute. reflexivity.
  - done.
  - intros Hl. by apply Hdup, lockstep_unique.
Qed.

(** ** Timestamps of an update *)

(** What a returned update carries: the identity and the creation time of the
    stored device, and the clock reading as [updated_at]. *)
Lemma update_result_fields now device_id update_data self existing d self' :
  Repo._devices self !! device_id = Some existing →
  Updates.is_empty (model_dump_exclude_unset update_data) = false →
  Repo.update now device_id update_data self = (Return (Some d), self') →
  Device.id d = Device.id existing ∧
  Device.created_at d = Device.created_at existing ∧
  Device.updated_at d = now.
Proof.
  intros Hd He. rewrite (update_unfold _ _ _ _ existing) by done.
  destruct (hostname_conflict _ _ _); [done|].
  destruct (ip_conflict _ _ _); [done|]. simpl.
  repeat case_match; try done. by intros [= <- _].
Qed.

(** C4. [updated_at] is not strictly increasing: the repository stores the
    clock reading as it is. An update made at the clock reading at which the
    device was created returns the prior [updated_at], and two successful
    updates made at one clock reading return the same [updated_at]. Identity
    and creation time are kept. *)
Theorem update_same_clock_reading_same_updated_at :
  ∃ previous first second self1 self2,
    Repo._devices one_device !! 1%N = Some previous ∧
    Repo.update (Device.updated_at previous) 1 (set_site "dc2") one_device
    = (Return (Some first), self1) ∧
    Repo.update (Device.updated_at previous) 1 (set_site "dc3") self1
    = (Return (Some second), self2) ∧
    Device.site first = Some "dc2" ∧ Device.site second = Some "dc3" ∧
    Device.id first = Device.id previous ∧
    Device.created_at first = Device.created_at previous ∧
    Device.updated_at first = Device.updated_at previous ∧
    ¬ (Device.updated_at previous < Device.updated_at first)%Z ∧
    Device.updated_at second = Device.updated_at first ∧
    ¬ (Device.updated_at first < Device.updated_at second)%Z.
Proof.
  do 5 eexists. split; [vm_compute; reflexivity|].
  split; [vm_compute; reflexivity|].
  split; [vm_compute; reflexivity|]. simpl. repeat split; lia.
Qed.

(** ** A successful [add] *)

Lemma elem_of_values (devices : gmap UUID Device.t) d :
  d ∈ Repo.values devices ↔ ∃ device_id, devices !! device_id = Some d.
Proof.
  unfold Repo.values. rewrite list_elem_of_fmap. split.
  - intros ([i d'] & -> & Hin). exists i. by apply elem_of_map_to_list.
  - intros (i & Hi). exists (i, d). split; [done|]. by apply elem_of_map_to_list.
Qed.

(** [add] when both checks pass and neither string is blank. *)
Lemma add_returns uuid4 now_created now_updated device_data self :
  DeviceCreate.valid device_data →
  ¬ blank (DeviceCreate.hostname device_data) →
  ¬ blank (DeviceCreate.site device_data) →
  Repo._hostname_index self !! Some (DeviceCreate.hostname device_data) = None →
  Repo._ip_index self !! str (DeviceCreate.management_ip device_data) = None →
  let device := added_device uuid4 now_created now_updated device_data in
  Repo.add uuid4 now_created now_updated device_data self
  = (Return device,
     Repo.mk (<[uuid4 := device]> (Repo._devices self))
       (<[Device.hostname device := uuid4]> (Repo._hostname_index self))
       (<[ip_key device := uuid4]> (Repo._ip_index self))).
Proof.
  intros [Hvh Hvs] Hh Hs Hfree Hip device. rewrite add_unfold.
  apply contains_false in Hfree, Hip. rewrite Hfree, Hip.
  by rewrite Device_init_ok by (by apply length_ok_strip).
Qed.

(** C5, as the code has it. For every creation payload (an instance of the
    schema) whose hostname and site are not blank, whose hostname is absent
    from the hostname index and whose canonical IP text is absent from the IP
    index, [add] returns a device that carries the payload's address,
    platform and role, its hostname and site with the surrounding whitespace
    removed, the generated identity and the two clock readings; afterwards
    [get_by_id] finds it under that identity, [get_by_hostname] under its
    hostname, and [get_all] lists it. *)
Theorem add_stores_trimmed_device uuid4 now_created now_updated device_data self :
  DeviceCreate.valid device_data →
  ¬ blank (DeviceCreate.hostname device_data) →
  ¬ blank (DeviceCreate.site device_data) →
  Repo._hostname_index self !! Some (DeviceCreate.hostname device_data) = None →
  Repo._ip_index self !! str (DeviceCreate.management_ip device_data) = None →
  let device :=
    Device.mk uuid4 (Some (strip_whitespace (DeviceCreate.hostname device_data)))
      (Some (DeviceCreate.management_ip device_data))
      (Some (DeviceCreate.platform device_data))
      (Some (DeviceCreate.role device_data))
      (Some (strip_whitespace (DeviceCreate.site device_data)))
      now_created now_updated in
  ∃ self',
    Repo.add uuid4 now_created now_updated device_data self = (Return device, self') ∧
    Repo.get_by_id uuid4 self' = (Return (Some device), self') ∧
    Repo.get_by_hostname (Device.hostname device) self' = (Return (Some device), self') ∧
    (∃ all, Repo.get_all self' = (Return all, self') ∧ device ∈ all).
Proof.
  intros Hv Hh Hs Hfree Hip device.
  rewrite add_returns by done. fold (added_device uuid4 now_created now_updated device_data).
  change (added_device uuid4 now_created now_updated device_data) with device.
  eexists. split; [reflexivity|].
  unfold Repo.get_by_id, Repo.get_by_hostname, Repo.get_all. run_method.
  repeat (rewrite lookup_insert_eq; simpl). split; [done|]. split; [done|].
  eexists. split; [done|]. apply elem_of_values. exists uuid4.
  by rewrite lookup_insert_eq.
Qed.

(** [leaf1] added next to [spine1]. *)
Lemma add_stores_trimmed_device_witness :
  let device :=
    Device.mk 2 (Some "leaf1") (Some ip_10_0_0_2) (Some NXOS) (Some LEAF) (Some "dc1")
      2000 2000 in
  ∃ self',
    Repo.add 2 2000 2000 leaf1 one_device = (Return device, self') ∧
    Repo.get_by_id 2 self' = (Return (Some device), self') ∧
    Repo.get_by_hostname (Some "leaf1") self' = (Return (Some device), self') ∧
    (∃ all, Repo.get_all self' = (Return all, self') ∧ device ∈ all).
Proof.
  apply (add_stores_trimmed_device 2 2000 2000 leaf1 one_device);
    vm_compute; try reflexivity; try discriminate.
  split; reflexivity.
Defined.

(** C5 as stated fails. A payload of the schema whose hostname is two spaces,
    or one no-break space, absent from the empty indexes like its address, is
    rejected by the [Device] constructor and nothing is stored; so is a
    payload whose site is two spaces; and the device built from ["spine1 "]
    does not carry the payload's hostname. *)
Lemma add_blank_hostname_rejected :
  DeviceCreate.valid blank_hostname ∧
  Repo._hostname_index Repo.__init__ !! Some (DeviceCreate.hostname blank_hostname) = None ∧
  Repo._ip_index Repo.__init__ !! str (DeviceCreate.management_ip blank_hostname) = None ∧
  Repo.add 1 1000 1000 blank_hostname Repo.__init__
  = (Raise (ValidationError ["hostname"]), Repo.__init__) ∧
  DeviceCreate.valid no_break_space_hostname ∧
  Repo.add 1 1000 1000 no_break_space_hostname Repo.__init__
  = (Raise (ValidationError ["hostname"]), Repo.__init__) ∧
  DeviceCreate.valid (DeviceCreate.mk "spine1" ip_10_0_0_1 EOS SPINE "  ") ∧
  Repo.add 1 1000 1000 (DeviceCreate.mk "spine1" ip_10_0_0_1 EOS SPINE "  ") Repo.__init__
  = (Raise (ValidationError ["site"]), Repo.__init__) ∧
  ∃ device self',
    DeviceCreate.valid spine1_trailing_space ∧
    Repo.add 1 1000 1000 spine1_trailing_space Repo.__init__ = (Return device, self') ∧
    Device.hostname device ≠ Some (DeviceCreate.hostname spine1_trailing_space).
Proof.
  split; [by vm_compute|]. split; [done|]. split; [done|].
  split; [vm_compute; reflexivity|].
  split; [by vm_compute|]. split; [vm_compute; reflexivity|].
  split; [by vm_compute|]. split; [vm_compute; reflexivity|].
  do 2 eexists. split; [by vm_compute|]. split; [vm_compute; reflexivity|].
  simpl. discriminate.
Qed.

(** ** Deleting, and adding again *)





(** ** The scenarios of the specification and of the unit tests, replayed *)

Example str_ipv4 : str ip_10_0_0_1 = "10.0.0.1".
Proof. reflexivity. Qed.

Example str_ipv6 : str (IPv6Address 0x20010db8000000000000000000000001) = "2001:db8::1".
Proof. reflexivity. Qed.

Example strip_whitespace_examples :
  strip_whitespace "spine1 " = "spine1" ∧ strip_whitespace " dc 1 " = "dc 1"
  ∧ strip_whitespace "  " = "" ∧ strip_whitespace "leaf1" = "leaf1"
  ∧ strip_whitespace ("spine1" ++ no_break_space) = "spine1"
  ∧ strip_whitespace no_break_space = "".
Proof. by vm_compute. Qed.

(** Lengths are counted in characters: 127 times U+00E9, 254 bytes of UTF-8,
    is a hostname of the models. *)
Example len_counts_characters :
  let e_acute := String (ascii_of_N 0xC3) (String (ascii_of_N 0xA9) "") in
  let hostname := String.concat "" (replicate 127 e_acute) in
  String.length hostname = 254%nat ∧ len hostname = 127%nat ∧
  length_ok 1 253 hostname = true.
Proof. by vm_compute. Qed.

(** The empty repository. *)
Example empty_repository device_id :
  Repo.get_all Repo.__init__ = (Return [], Repo.__init__) ∧
  Repo.delete device_id Repo.__init__ = (Return false, Repo.__init__) ∧
  Repo.get_by_id device_id Repo.__init__ = (Return None, Repo.__init__).
Proof. by rewrite delete_unfold. Qed.

(** Renaming [spine1]: same identity and address, the clock reading as
    [updated_at]; the old hostname is gone and the new one finds the record. *)
Example rename_scenario :
  ∃ renamed self',
    Repo.update 2000 1 (set_hostname "spine1-renamed") one_device
    = (Return (Some renamed), self') ∧
    renamed = Device.mk 1 (Some "spine1-renamed") (Some ip_10_0_0_1) (Some EOS) (Some SPINE)
                (Some "dc1") 1000 2000 ∧
    Repo.get_by_hostname (Some "spine1") self' = (Return None, self') ∧
    Repo.get_by_hostname (Some "spine1-renamed") self' = (Return (Some renamed), self').
Proof.
  do 2 eexists. split; [vm_compute; reflexivity|].
  split; [reflexivity|]. split; vm_compute; reflexivity.
Qed.

(** The four devices of [TestFilterBy] and the sizes its tests expect. *)
Example filter_by_examples :
  let populated_repo :=
    run_calls
      [CallAdd 1 1000 1000 (DeviceCreate.mk "spine1" (IPv4Address 0x0A000001) EOS SPINE "dc1");
       CallAdd 2 1001 1001 (DeviceCreate.mk "spine2" (IPv4Address 0x0A000002) EOS SPINE "dc2");
       CallAdd 3 1002 1002 (DeviceCreate.mk "leaf1" (IPv4Address 0x0A000003) NXOS LEAF "dc1");
       CallAdd 4 1003 1003 (DeviceCreate.mk "leaf2" (IPv4Address 0x0A000004) IOS_XE LEAF "dc1")]
      Repo.__init__ in
  let count criteria :=
    match fst (criteria populated_repo) with
    | Return results => Some (List.length results)
    | Raise _ => None
    end in
  count (Repo.filter_by (Some "eos") None None) = Some 2 ∧
  count (Repo.filter_by None (Some "spine") None) = Some 2 ∧
  count (Repo.filter_by None None (Some "dc1")) = Some 3 ∧
  count (Repo.filter_by None (Some "leaf") (Some "dc1")) = Some 2 ∧
  count (Repo.filter_by None None (Some "dc99")) = Some 0 ∧
  count (Repo.filter_by None None None) = Some 4.
Proof. by vm_compute. Qed.

(** What follows once two devices share a hostname: deleting the first removes
    the index entry of the second; deleting the second then removes it from
    the store and lets a [KeyError] through, and its address stays in the IP
    index with no device behind it. *)
Example deletes_after_shared_hostname :
  let self := run_calls whitespace_calls Repo.__init__ in
  ∃ self1 self2,
    Repo.delete 1 self = (Return true, self1) ∧
    Repo._hostname_index self1 !! Some "spine1" = None ∧
    Repo.delete 2 self1 = (Raise KeyError, self2) ∧
    Repo._devices self2 = ∅ ∧
    Repo._ip_index self2 !! "10.0.0.2" = Some 2%N.
Proof.
  do 2 eexists. split; [vm_compute; reflexivity|].
  split; [vm_compute; reflexivity|].
  split; [vm_compute; reflexivity|]. split; vm_compute; reflexivity.
Qed.

(** * Further properties of the code *)

(** ** The [Device] constructor *)

(** X1. A device that the constructor returns is normalised: it has the
    given address, platform and role and a hostname and a site that trimming
    leaves unchanged, both within their length bounds, and constructing a
    device again from its fields returns the same device. *)
Theorem Device_init_normalises uuid4 now_created now_updated
    hostname ip platform role site d :
  Device_init uuid4 now_created now_updated hostname ip platform role site = Return d →
  ∃ h s,
    d = Device.mk uuid4 (Some h) (Some ip) (Some platform) (Some role) (Some s)
          now_created now_updated ∧
    strip_whitespace h = h ∧
    strip_whitespace s = s ∧
    length_ok 1 253 h = true ∧
    length_ok 1 100 s = true ∧
    Device_init uuid4 now_created now_updated h ip platform role s = Return d.
Proof.
  unfold Device_init.
  destruct (length_ok 1 253 (strip_whitespace hostname)) eqn:Hh; simpl; [|done].
  destruct (length_ok 1 100 (strip_whitespace site)) eqn:Hs; simpl; [|done].
  intros [= <-]. exists (strip_whitespace hostname), (strip_whitespace site).
  rewrite !strip_whitespace_idemp, Hh, Hs. done.
Qed.

Lemma Device_init_normalises_witness :
  ∃ h s,
    spine1_device = Device.mk 1 (Some h) (Some ip_10_0_0_1) (Some EOS) (Some SPINE) (Some s)
                      1000 1000 ∧
    strip_whitespace h = h ∧ strip_whitespace s = s.
Proof.
  destruct (Device_init_normalises 1 1000 1000 " spine1 " ip_10_0_0_1 EOS SPINE
              ("dc1" ++ no_break_space) spine1_device)
    as (h & s & Hd & Hh & Hs & _); [vm_compute; reflexivity|].
  exists h, s. exact (conj Hd (conj Hh Hs)).
Defined.

(** ** More on [add] *)

(** X2. An [add] that raises has changed nothing, and raises one of three
    errors: the duplicate hostname (the payload's hostname is indexed), the
    duplicate address (the hostname is not indexed, the canonical address
    text is), or the constructor's validation error (neither is indexed),
    which lists [hostname] exactly when what is left of the hostname after
    trimming is out of bounds, [site] exactly when what is left of the site
    is, and lists one of them at least. *)
Theorem add_raise_changes_nothing uuid4 now_created now_updated device_data self e self' :
  Repo.add uuid4 now_created now_updated device_data self = (Raise e, self') →
  self' = self ∧
  ((e = DuplicateDeviceError "hostname" (Some (DeviceCreate.hostname device_data)) ∧
    is_Some (Repo._hostname_index self !! Some (DeviceCreate.hostname device_data)))
   ∨ (e = DuplicateDeviceError "management_ip"
            (Some (str (DeviceCreate.management_ip device_data))) ∧
      Repo._hostname_index self !! Some (DeviceCreate.hostname device_data) = None ∧
      is_Some (Repo._ip_index self !! str (DeviceCreate.management_ip device_data)))
   ∨ (∃ locs,
        e = ValidationError locs ∧ locs ≠ [] ∧
        Repo._hostname_index self !! Some (DeviceCreate.hostname device_data) = None ∧
        Repo._ip_index self !! str (DeviceCreate.management_ip device_data) = None ∧
        ("hostname" ∈ locs ↔
         length_ok 1 253 (strip_whitespace (DeviceCreate.hostname device_data)) = false) ∧
        ("site" ∈ locs ↔
         length_ok 1 100 (strip_whitespace (DeviceCreate.site device_data)) = false) ∧
        ∀ loc, loc ∈ locs → loc = "hostname" ∨ loc = "site")).
Proof.
  rewrite add_unfold.
  destruct (Repo.contains _ (Repo._hostname_index self)) eqn:Hh.
  { intros [= <- <-]. apply contains_true in Hh. split; [done|]. by left. }
  destruct (Repo.contains _ (Repo._ip_index self)) eqn:Hip.
  { intros [= <- <-]. apply contains_true in Hip. apply contains_false in Hh.
    split; [done|]. right. by left. }
  apply contains_false in Hh, Hip.
  unfold Device_init.
  destruct (length_ok 1 253 (strip_whitespace _)) eqn:Hlh;
    destruct (length_ok 1 100 (strip_whitespace _)) eqn:Hls; simpl; [done|..];
    intros [= <- <-]; (split; [done|]); do 2 right;
    eexists; (split; [reflexivity|]); (split; [done|]);
    (split; [done|]); (split; [done|]).
  all: split; [|split].
  all: try intros loc.
  all: rewrite ?elem_of_cons, ?elem_of_nil; intuition congruence.
Qed.

Lemma add_raise_changes_nothing_witness :
  Repo.__init__ = Repo.__init__ ∧
  length_ok 1 253 (strip_whitespace "  ") = false.
Proof.
  destruct (add_raise_changes_nothing 1 1000 1000 blank_hostname Repo.__init__
              (ValidationError ["hostname"]) Repo.__init__)
    as (Hsame & [(He & _) | [(He & _) | (locs & He & _ & _ & _ & Hlen & _)]]);
    [vm_compute; reflexivity | discriminate He | discriminate He |].
  split; [exact Hsame|]. apply Hlen. injection He as <-. by left.
Defined.

(** X3. For a payload of the creation schema, [add] returns a device exactly
    when its hostname and its canonical address text are absent from their
    indexes and neither its hostname nor its site is blank. *)
Theorem add_returns_iff uuid4 now_created now_updated device_data self :
  DeviceCreate.valid device_data →
  (∃ device self',
     Repo.add uuid4 now_created now_updated device_data self = (Return device, self'))
  ↔ Repo._hostname_index self !! Some (DeviceCreate.hostname device_data) = None ∧
    Repo._ip_index self !! str (DeviceCreate.management_ip device_data) = None ∧
    ¬ blank (DeviceCreate.hostname device_data) ∧
    ¬ blank (DeviceCreate.site device_data).
Proof.
  intros Hv. split.
  - intros (device & self' & Hadd). rewrite add_unfold in Hadd.
    destruct (Repo.contains _ (Repo._hostname_index self)) eqn:Hh; [done|].
    destruct (Repo.contains _ (Repo._ip_index self)) eqn:Hip; [done|].
    apply contains_false in Hh, Hip. split; [done|]. split; [done|].
    destruct (Device_init _ _ _ _ _ _ _ _) as [d|] eqn:Hinit; [|done].
    apply Device_init_inv in Hinit as (Hlh & Hls & _).
    split; by eapply length_ok_not_blank.
  - intros (Hh & Hip & Hnh & Hns). rewrite add_returns by done. eauto.
Qed.

Lemma add_returns_iff_witness :
  (∃ device self', Repo.add 2 2000 2000 leaf1 one_device = (Return device, self')) ∧
  ¬ (∃ device self',
       Repo.add 2 2000 2000 no_break_space_hostname Repo.__init__ = (Return device, self')).
Proof.
  split.
  - apply (add_returns_iff 2 2000 2000 leaf1 one_device); [by vm_compute|].
    vm_compute. repeat split; discriminate.
  - intros Hret.
    apply (add_returns_iff 2 2000 2000 no_break_space_hostname Repo.__init__) in Hret
      as (_ & _ & Hblank & _); [|by vm_compute].
    apply Hblank. vm_compute. reflexivity.
Defined.

(** X4. An [add] that returns, under an identity that was not in use, makes
    [get_all] one device longer and leaves what [get_by_id] answers for every
    other identity as it was. *)
Theorem add_grows_store_by_one uuid4 now_created now_updated device_data self device self' :
  Repo._devices self !! uuid4 = None →
  Repo.add uuid4 now_created now_updated device_data self = (Return device, self') →
  (∃ before after,
     Repo.get_all self = (Return before, self) ∧
     Repo.get_all self' = (Return after, self') ∧
     List.length after = S (List.length before)) ∧
  (∀ other, other ≠ uuid4 →
     fst (Repo.get_by_id other self') = fst (Repo.get_by_id other self)).
Proof.
  intros Hfresh. rewrite add_unfold.
  destruct (Repo.contains _ (Repo._hostname_index self)); [done|].
  destruct (Repo.contains _ (Repo._ip_index self)); [done|].
  destruct (Device_init _ _ _ _ _ _ _ _) as [d|] eqn:Hinit; [|done].
  apply Device_init_inv in Hinit as (_ & _ & ->). intros [= <- <-].
  unfold Repo.get_all, Repo.get_by_id. run_method. split.
  - do 2 eexists. split; [done|]. split; [done|].
    unfold Repo.values. rewrite !length_fmap, !length_map_to_list.
    by apply map_size_insert_None.
  - intros other Hne. by rewrite lookup_insert_ne.
Qed.

Lemma add_grows_store_by_one_witness :
  ∃ before after self',
    Repo.get_all one_device = (Return before, one_device) ∧
    Repo.get_all self' = (Return after, self') ∧
    List.length after = S (List.length before).
Proof.
  destruct (add_grows_store_by_one 2 2000 2000 leaf1 one_device
              (Device.mk 2 (Some "leaf1") (Some ip_10_0_0_2) (Some NXOS) (Some LEAF)
                 (Some "dc1") 2000 2000)
              two_devices)
    as ((before & after & Hb & Ha & Hlen) & _);
    [vm_compute; reflexivity | vm_compute; reflexivity |].
  exists before, after, two_devices. by repeat split.
Defined.

(** X5. Adding the payload of a returned [add] once more always raises a
    duplicate error and changes nothing: on the hostname when the payload's
    hostname has no surrounding whitespace, and otherwise on the address,
    since the hostname was indexed in its trimmed form. *)
Theorem add_again_raises_duplicate uuid4 now_created now_updated device_data self
    device self' uuid4' now_created' now_updated' :
  Repo.add uuid4 now_created now_updated device_data self = (Return device, self') →
  (strip_whitespace (DeviceCreate.hostname device_data) = DeviceCreate.hostname device_data →
   Repo.add uuid4' now_created' now_updated' device_data self'
   = (Raise (DuplicateDeviceError "hostname" (Some (DeviceCreate.hostname device_data))),
      self'))
  ∧
  (strip_whitespace (DeviceCreate.hostname device_data) ≠ DeviceCreate.hostname device_data →
   Repo.add uuid4' now_created' now_updated' device_data self'
   = (Raise (DuplicateDeviceError "management_ip"
               (Some (str (DeviceCreate.management_ip device_data)))), self')).
Proof.
  rewrite add_unfold.
  destruct (Repo.contains _ (Repo._hostname_index self)) eqn:Hh; [done|].
  destruct (Repo.contains _ (Repo._ip_index self)) eqn:Hip; [done|].
  destruct (Device_init _ _ _ _ _ _ _ _) as [d|] eqn:Hinit; [|done].
  apply Device_init_inv in Hinit as (_ & _ & ->). intros [= <- <-].
  apply contains_false in Hh. rewrite add_unfold. simpl. unfold ip_key. simpl.
  unfold Repo.contains. split.
  - intros ->. by rewrite lookup_insert_eq.
  - intros Hne. rewrite lookup_insert_ne, Hh by congruence. by rewrite lookup_insert_eq.
Qed.

Lemma add_again_raises_duplicate_witness :
  Repo.add 2 2000 2000 spine1 one_device
  = (Raise (DuplicateDeviceError "hostname" (Some "spine1")), one_device)
  ∧ ∃ self', Repo.add 3 3000 3000 spine1_trailing_no_break_space self'
             = (Raise (DuplicateDeviceError "management_ip" (Some "10.0.0.2")), self').
Proof.
  split.
  - apply (add_again_raises_duplicate 1 1000 1000 spine1 Repo.__init__
             spine1_device one_device 2 2000 2000);
      [vm_compute; reflexivity | reflexivity].
  - eexists.
    apply (add_again_raises_duplicate 1 1000 1000 spine1_trailing_no_break_space
             Repo.__init__
             (Device.mk 1 (Some "spine1") (Some ip_10_0_0_2) (Some EOS) (Some SPINE)
                (Some "dc1") 1000 1000) _ 3 3000 3000);
      [vm_compute; reflexivity | vm_compute; discriminate].
Defined.

(** X6. [add] then [delete] is a round trip: when the identity was not in use
    and the trimmed hostname not indexed, deleting the device that [add]
    returned gives back the repository as it was before the [add]. *)
Theorem add_then_delete_restores uuid4 now_created now_updated device_data self
    device self' :
  Repo._devices self !! uuid4 = None →
  Repo._hostname_index self !! Some (strip_whitespace (DeviceCreate.hostname device_data))
  = None →
  Repo.add uuid4 now_created now_updated device_data self = (Return device, self') →
  Repo.delete (Device.id device) self' = (Return true, self).
Proof.
  intros Hfresh Hfree. rewrite add_unfold.
  destruct (Repo.contains _ (Repo._hostname_index self)) eqn:Hh; [done|].
  destruct (Repo.contains _ (Repo._ip_index self)) eqn:Hip; [done|].
  destruct (Device_init _ _ _ _ _ _ _ _) as [d|] eqn:Hinit; [|done].
  apply Device_init_inv in Hinit as (_ & _ & ->). intros [= <- <-].
  apply contains_false in Hip.
  rewrite delete_unfold. simpl. rewrite lookup_insert_eq. simpl.
  unfold Repo.contains, ip_key. simpl. rewrite !lookup_insert_eq. simpl.
  rewrite !delete_insert_id by done. by destruct self.
Qed.

Lemma add_then_delete_restores_witness :
  Repo.delete 2 two_devices = (Return true, one_device).
Proof.
  apply (add_then_delete_restores 2 2000 2000 leaf1 one_device
           (Device.mk 2 (Some "leaf1") (Some ip_10_0_0_2) (Some NXOS) (Some LEAF)
                 (Some "dc1") 2000 2000) two_devices);
    vm_compute; reflexivity.
Defined.

(** ** More on [delete] *)

(** X7. A [delete] that returned [True] is followed, for the same identity,
    by a [delete] that returns [False] and changes nothing. *)
Theorem delete_again_returns_false device_id self self' :
  Repo.delete device_id self = (Return true, self') →
  Repo.delete device_id self' = (Return false, self').
Proof.
  rewrite delete_unfold.
  destruct (Repo._devices self !! device_id) as [device|]; [|done]. simpl.
  destruct (Repo.contains (Device.hostname device) _); simpl; [|done].
  destruct (Repo.contains (ip_key device) _); simpl; [|done].
  intros [= <-]. rewrite delete_unfold. simpl. by rewrite lookup_delete_eq.
Qed.

Lemma delete_again_returns_false_witness :
  ∃ self', Repo.delete 1 one_device = (Return true, self') ∧
           Repo.delete 1 self' = (Return false, self').
Proof.
  eexists. split; [vm_compute; reflexivity|].
  apply (delete_again_returns_false 1 one_device). vm_compute. reflexivity.
Defined.

(** X8. In a repository in lockstep, a [delete] that returns [True] makes
    [get_all] one device shorter and leaves every other device where it was:
    [get_by_id] and [get_by_hostname] still find it. *)
Theorem delete_leaves_other_devices device_id self self' :
  lockstep self →
  Repo.delete device_id self = (Return true, self') →
  (∃ before after,
     Repo.get_all self = (Return before, self) ∧
     Repo.get_all self' = (Return after, self') ∧
     List.length before = S (List.length after)) ∧
  (∀ other d, other ≠ device_id → Repo._devices self !! other = Some d →
     Repo.get_by_id other self' = (Return (Some d), self') ∧
     Repo.get_by_hostname (Device.hostname d) self' = (Return (Some d), self')).
Proof.
  intros Hl.
  destruct (Repo._devices self !! device_id) as [device|] eqn:Hd;
    [|by rewrite delete_unfold, Hd].
  rewrite (delete_lockstep_unfold _ _ device) by done. intros [= <-].
  unfold Repo.get_all, Repo.get_by_id, Repo.get_by_hostname. run_method. split.
  - do 2 eexists. split; [done|]. split; [done|].
    unfold Repo.values. rewrite !length_fmap, !length_map_to_list.
    rewrite <- (insert_delete_id _ _ _ Hd) at 1.
    apply map_size_insert_None, lookup_delete_eq.
  - intros other d Hne Hother. rewrite lookup_delete_ne by done. rewrite Hother.
    split; [done|].
    destruct Hl as (_ & Hhi & _).
    assert (Device.hostname d ≠ Device.hostname device) as Hk.
    { intros Heq. apply Hne. by eapply (index_ok_unique Device.hostname). }
    rewrite lookup_delete_ne by done.
    assert (Repo._hostname_index self !! Device.hostname d = Some other) as ->
      by (apply Hhi; eauto).
    simpl. by rewrite lookup_delete_ne, Hother.
Qed.

Lemma delete_leaves_other_devices_witness :
  ∃ self',
    Repo.delete 1 two_devices = (Return true, self') ∧
    Repo.get_by_hostname (Some "leaf1") self'
    = (Return (Some (Device.mk 2 (Some "leaf1") (Some ip_10_0_0_2) (Some NXOS) (Some LEAF)
                 (Some "dc1") 2000 2000)), self').
Proof.
  eexists. split; [vm_compute; reflexivity|].
  refine (proj2 (proj2 (delete_leaves_other_devices 1 two_devices _
                          two_devices_lockstep _) 2%N
                   (Device.mk 2 (Some "leaf1") (Some ip_10_0_0_2) (Some NXOS) (Some LEAF)
                 (Some "dc1") 2000 2000) _ _));
    [vm_compute; reflexivity | discriminate | vm_compute; reflexivity].
Defined.

(** X9. [delete] is not all-or-nothing when an index entry is missing: if the
    stored device's hostname is not indexed, [delete] raises [KeyError] after
    it has removed the device from the store; if the hostname is indexed and
    the address is not, it raises [KeyError] after it has removed the device
    and the hostname entry. *)
Theorem delete_missing_index_entry device_id self device :
  Repo._devices self !! device_id = Some device →
  (Repo._hostname_index self !! Device.hostname device = None →
   Repo.delete device_id self
   = (Raise KeyError,
      Repo.mk (delete device_id (Repo._devices self))
        (Repo._hostname_index self) (Repo._ip_index self)))
  ∧
  (is_Some (Repo._hostname_index self !! Device.hostname device) →
   Repo._ip_index self !! ip_key device = None →
   Repo.delete device_id self
   = (Raise KeyError,
      Repo.mk (delete device_id (Repo._devices self))
        (delete (Device.hostname device) (Repo._hostname_index self))
        (Repo._ip_index self))).
Proof.
  intros Hd. rewrite delete_unfold, Hd. simpl. split.
  - intros Hh%contains_false. by rewrite Hh.
  - intros Hh%contains_true Hip%contains_false. by rewrite Hh, Hip.
Qed.

Lemma delete_missing_index_entry_witness :
  Repo.delete 1 store_only = (Raise KeyError, Repo.__init__) ∧
  Repo.delete 1 no_ip_entry = (Raise KeyError, Repo.__init__).
Proof.
  split.
  - destruct (delete_missing_index_entry 1 store_only spine1_device) as [Hh _];
      [vm_compute; reflexivity|].
    etrans; [apply Hh; vm_compute; reflexivity|]. vm_compute. reflexivity.
  - destruct (delete_missing_index_entry 1 no_ip_entry spine1_device) as [_ Hip];
      [vm_compute; reflexivity|].
    etrans; [apply Hip; vm_compute; eauto|]. vm_compute. reflexivity.
Defined.
(** ** More on [update] *)

(** X10. In a repository in lockstep an [update] that raises has changed
    nothing, and what it raises is a duplicate error: on the hostname that the
    payload sets, which differs from the device's and is indexed, or on the
    canonical text of the address that it sets, which differs from the
    device's and is indexed. *)
Theorem update_raise_changes_nothing now device_id update_data self e self' :
  lockstep self →
  Repo.update now device_id update_data self = (Raise e, self') →
  self' = self ∧
  ∃ existing,
    Repo._devices self !! device_id = Some existing ∧
    ((∃ h, DeviceUpdate.hostname update_data = Some h ∧
           h ≠ Device.hostname existing ∧
           is_Some (Repo._hostname_index self !! h) ∧
           e = DuplicateDeviceError "hostname" h)
     ∨ (∃ ip, DeviceUpdate.management_ip update_data = Some ip ∧
              str_value ip ≠ ip_key existing ∧
              is_Some (Repo._ip_index self !! str_value ip) ∧
              e = DuplicateDeviceError "management_ip" (Some (str_value ip)))).
Proof.
  intros Hl.
  destruct (Repo._devices self !! device_id) as [existing|] eqn:Hd;
    [|by rewrite update_absent].
  destruct (Updates.is_empty (model_dump_exclude_unset update_data)) eqn:He;
    [by rewrite (update_nothing_set _ _ _ _ existing)|].
  rewrite (update_lockstep_cases _ _ _ _ existing) by done.
  unfold hostname_conflict, ip_conflict. fold (ip_key existing).
  destruct (DeviceUpdate.hostname update_data) as [h|] eqn:Hh.
  - destruct (bool_decide (h ≠ Device.hostname existing)) eqn:Hne; simpl.
    + destruct (Repo.contains h _) eqn:Hin.
      * intros [= <- <-]. split; [done|]. exists existing. split; [done|]. left.
        exists h. apply bool_decide_eq_true in Hne. apply contains_true in Hin. done.
      * destruct (DeviceUpdate.management_ip update_data) as [ip|]; [|done].
        destruct (bool_decide (str_value ip ≠ ip_key existing)) eqn:Hni; simpl; [|done].
        destruct (Repo.contains (str_value ip) _) eqn:Hii; [|done].
        intros [= <- <-]. split; [done|]. exists existing. split; [done|]. right.
        exists ip. apply bool_decide_eq_true in Hni. apply contains_true in Hii. done.
    + destruct (DeviceUpdate.management_ip update_data) as [ip|]; [|done].
      destruct (bool_decide (str_value ip ≠ ip_key existing)) eqn:Hni; simpl; [|done].
      destruct (Repo.contains (str_value ip) _) eqn:Hii; [|done].
      intros [= <- <-]. split; [done|]. exists existing. split; [done|]. right.
      exists ip. apply bool_decide_eq_true in Hni. apply contains_true in Hii. done.
  - destruct (DeviceUpdate.management_ip update_data) as [ip|]; [|done].
    destruct (bool_decide (str_value ip ≠ ip_key existing)) eqn:Hni; simpl; [|done].
    destruct (Repo.contains (str_value ip) _) eqn:Hii; [|done].
    intros [= <- <-]. split; [done|]. exists existing. split; [done|]. right.
    exists ip. apply bool_decide_eq_true in Hni. apply contains_true in Hii. done.
Qed.

Lemma update_raise_changes_nothing_witness :
  two_devices = two_devices ∧
  ∃ existing, Repo._devices two_devices !! 2%N = Some existing.
Proof.
  destruct (update_raise_changes_nothing 3000 2 (set_hostname "spine1") two_devices
              (DuplicateDeviceError "hostname" (Some "spine1")) two_devices
              two_devices_lockstep)
    as (Hsame & existing & Hd & _); [vm_compute; reflexivity|].
  split; [exact Hsame|]. by exists existing.
Defined.

(** X11. Whatever the repository, the payload and the outcome, [update] keeps
    the set of stored identities and does not touch the device of any other
    identity. *)
Theorem update_keeps_identities now device_id update_data self :
  dom (Repo._devices (snd (Repo.update now device_id update_data self)))
  = dom (Repo._devices self) ∧
  ∀ other, other ≠ device_id →
    Repo._devices (snd (Repo.update now device_id update_data self)) !! other
    = Repo._devices self !! other.
Proof.
  destruct (Repo._devices self !! device_id) as [existing|] eqn:Hd;
    [|by rewrite update_absent].
  destruct (Updates.is_empty (model_dump_exclude_unset update_data)) eqn:He;
    [by rewrite (update_nothing_set _ _ _ _ existing)|].
  rewrite (update_unfold _ _ _ _ existing) by done.
  destruct (hostname_conflict _ _ _); [done|].
  destruct (ip_conflict _ _ _); [done|]. simpl.
  destruct (_ && _); [done|]. destruct (_ && _); [done|]. simpl. split.
  - by apply dom_insert_lookup_L.
  - intros other Hne. by rewrite lookup_insert_ne.
Qed.

(** X12. In a repository in lockstep, an [update] that returns after setting
    a hostname other than the device's moves the device in the hostname
    index: the old hostname finds nothing, the new one finds the returned
    device, and so does the identity. *)
Theorem update_rename_moves_lookup now device_id update_data self existing h d self' :
  lockstep self →
  Repo._devices self !! device_id = Some existing →
  DeviceUpdate.hostname update_data = Some h →
  h ≠ Device.hostname existing →
  Repo.update now device_id update_data self = (Return (Some d), self') →
  Device.hostname d = h ∧
  Repo.get_by_hostname (Device.hostname existing) self' = (Return None, self') ∧
  Repo.get_by_hostname h self' = (Return (Some d), self') ∧
  Repo.get_by_id device_id self' = (Return (Some d), self').
Proof.
  intros Hl Hd Hh Hne.
  rewrite (update_lockstep_cases _ _ _ _ existing)
    by eauto using hostname_set_not_empty.
  destruct (hostname_conflict _ _ _); [done|].
  destruct (ip_conflict _ _ _); [done|].
  assert (Device.hostname (updated_device now existing update_data) = h) as Hnew.
  { unfold updated_device, model_copy, model_dump_exclude_unset. simpl. by rewrite Hh. }
  remember (updated_device now existing update_data) as d' eqn:Hd'.
  cbv zeta. rewrite Hnew. intros [= <- <-]. split; [done|].
  assert (reindex (Device.hostname existing) h device_id (Repo._hostname_index self)
          = <[h := device_id]> (delete (Device.hostname existing)
                                  (Repo._hostname_index self))) as ->
    by (unfold reindex; by rewrite bool_decide_true).
  unfold Repo.get_by_hostname, Repo.get_by_id. run_method.
  rewrite lookup_insert_ne by done. rewrite lookup_delete_eq.
  rewrite !lookup_insert_eq. simpl. by rewrite lookup_insert_eq.
Qed.

Lemma update_rename_moves_lookup_witness :
  let self' := snd (Repo.update 2000 1 (set_hostname "spine1-renamed") one_device) in
  let d := Device.mk 1 (Some "spine1-renamed") (Some ip_10_0_0_1) (Some EOS) (Some SPINE)
             (Some "dc1") 1000 2000 in
  Repo.get_by_hostname (Some "spine1") self' = (Return None, self') ∧
  Repo.get_by_hostname (Some "spine1-renamed") self' = (Return (Some d), self').
Proof.
  intros self' d.
  destruct (update_rename_moves_lookup 2000 1 (set_hostname "spine1-renamed") one_device
              spine1_device (Some "spine1-renamed") d self' one_device_lockstep)
    as (_ & Hold & Hnew & _);
    [vm_compute; reflexivity | reflexivity | discriminate | vm_compute; reflexivity |].
  exact (conj Hold Hnew).
Defined.

(** X13. Whatever the repository, the device that an [update] with a payload
    that sets something returns is stored under the identity, and is the
    stored device overlaid with the payload: a field that the payload sets has
    the payload's value, every other field of the model has the value it
    had, and [updated_at] is the clock reading. *)
Theorem update_overlays_payload now device_id update_data self existing d self' :
  Repo._devices self !! device_id = Some existing →
  Updates.is_empty (model_dump_exclude_unset update_data) = false →
  Repo.update now device_id update_data self = (Return (Some d), self') →
  Repo._devices self' !! device_id = Some d ∧
  Device.hostname d
  = default (Device.hostname existing) (DeviceUpdate.hostname update_data) ∧
  Device.management_ip d
  = default (Device.management_ip existing) (DeviceUpdate.management_ip update_data) ∧
  Device.platform d
  = default (Device.platform existing) (DeviceUpdate.platform update_data) ∧
  Device.role d = default (Device.role existing) (DeviceUpdate.role update_data) ∧
  Device.site d = default (Device.site existing) (DeviceUpdate.site update_data) ∧
  Device.id d = Device.id existing ∧
  Device.created_at d = Device.created_at existing ∧
  Device.updated_at d = now.
Proof.
  intros Hd He. rewrite (update_unfold _ _ _ _ existing) by done.
  destruct (hostname_conflict _ _ _); [done|].
  destruct (ip_conflict _ _ _); [done|]. simpl.
  destruct (_ && _); [done|]. destruct (_ && _); [done|].
  intros [= <- <-]. simpl. by rewrite lookup_insert_eq.
Qed.

Lemma update_overlays_payload_witness :
  let d := Device.mk 1 (Some "spine1") (Some ip_10_0_0_1) (Some EOS) (Some SPINE)
             (Some "dc2") 1000 2000 in
  fst (Repo.update 2000 1 (set_site "dc2") one_device) = Return (Some d) ∧
  Device.hostname d = Some "spine1" ∧ Device.site d = Some "dc2".
Proof.
  intros d. split; [vm_compute; reflexivity|].
  destruct (update_overlays_payload 2000 1 (set_site "dc2") one_device spine1_device d
              (snd (Repo.update 2000 1 (set_site "dc2") one_device)))
    as (_ & Hh & _ & _ & _ & Hs & _);
    [vm_compute; reflexivity | reflexivity | vm_compute; reflexivity |].
  exact (conj Hh Hs).
Defined.

(** X14. In a repository in lockstep, a payload that sets fields, all of them
    to the values the device already has, is not a no-op: [update] returns the
    device with [updated_at] moved to the clock reading and stores it, and
    leaves both indexes as they were. *)
Theorem update_current_values_bumps_timestamp now device_id update_data self existing :
  lockstep self →
  Repo._devices self !! device_id = Some existing →
  sets_current_values existing update_data →
  Repo.update now device_id update_data self
  = (Return (Some (with_updated_at now existing)),
     Repo.mk (<[device_id := with_updated_at now existing]> (Repo._devices self))
       (Repo._hostname_index self) (Repo._ip_index self)).
Proof.
  intros Hl Hd (He & Hh & Hip & Hp & Hr & Hs).
  assert (updated_device now existing update_data = with_updated_at now existing) as Hsame.
  { unfold updated_device, with_updated_at, model_copy, model_dump_exclude_unset. simpl.
    destruct (DeviceUpdate.hostname update_data) as [h|];
      [rewrite (Hh h eq_refl)|];
      (destruct (DeviceUpdate.management_ip update_data) as [ip|];
        [rewrite (Hip ip eq_refl)|]);
      (destruct (DeviceUpdate.platform update_data) as [p|];
        [rewrite (Hp p eq_refl)|]);
      (destruct (DeviceUpdate.role update_data) as [r|];
        [rewrite (Hr r eq_refl)|]);
      (destruct (DeviceUpdate.site update_data) as [s|];
        [rewrite (Hs s eq_refl)|]); done. }
  assert (hostname_conflict self existing update_data = None) as Hhc.
  { unfold hostname_conflict.
    destruct (DeviceUpdate.hostname update_data) as [h|]; [|done].
    by rewrite (Hh h eq_refl), bool_decide_false by (intros Hne; by apply Hne). }
  assert (ip_conflict self existing update_data = None) as Hic.
  { unfold ip_conflict.
    destruct (DeviceUpdate.management_ip update_data) as [ip|]; [|done].
    by rewrite (Hip ip eq_refl), bool_decide_false by (intros Hne; by apply Hne). }
  rewrite (update_lockstep_cases _ _ _ _ existing) by done.
  rewrite Hhc, Hic. cbv zeta. rewrite Hsame. unfold reindex.
  by rewrite !bool_decide_false by (intros Hne; by apply Hne).
Qed.

Lemma update_current_values_bumps_timestamp_witness :
  fst (Repo.update 9000 1 (set_hostname "spine1") one_device)
  = Return (Some (Device.mk 1 (Some "spine1") (Some ip_10_0_0_1) (Some EOS) (Some SPINE)
                    (Some "dc1") 1000 9000)).
Proof.
  rewrite (update_current_values_bumps_timestamp 9000 1 (set_hostname "spine1")
             one_device spine1_device one_device_lockstep).
  - reflexivity.
  - vm_compute. reflexivity.
  - split; [reflexivity|].
    repeat split; intros ? Heq; simpl in Heq; by simplify_eq.
Defined.

(** X15. [update] and [delete] keep a repository in lockstep, whatever their
    arguments and whether they return or raise. *)
Theorem update_and_delete_keep_lockstep now device_id update_data self :
  lockstep self →
  lockstep (snd (Repo.update now device_id update_data self)) ∧
  lockstep (snd (Repo.delete device_id self)).
Proof.
  intros Hl. split.
  - by apply update_preserves_lockstep.
  - by apply delete_preserves_lockstep.
Qed.

Lemma update_and_delete_keep_lockstep_witness :
  lockstep (snd (Repo.update 3000 2 (set_hostname "  leaf 1") two_devices)) ∧
  lockstep (snd (Repo.delete 2 two_devices)).
Proof.
  exact (update_and_delete_keep_lockstep 3000 2 (set_hostname "  leaf 1") two_devices
           two_devices_lockstep).
Defined.

(** ** More on the reads *)

(** X16. In a repository in lockstep the two lookups agree: [get_by_hostname]
    returns a device for a hostname exactly when that device has the hostname
    and [get_by_id] returns it for its identity. *)
Theorem get_by_hostname_agrees_with_get_by_id self h d :
  lockstep self →
  Repo.get_by_hostname h self = (Return (Some d), self)
  ↔ Device.hostname d = h ∧
    Repo.get_by_id (Device.id d) self = (Return (Some d), self).
Proof.
  intros (Hid & Hhi & _). unfold Repo.get_by_hostname, Repo.get_by_id. run_method.
  split.
  - destruct (Repo._hostname_index self !! h) as [device_id|] eqn:Hh; [|done].
    simpl. intros [= Hd]. apply Hhi in Hh as (d' & Hd' & Hk).
    rewrite Hd' in Hd. simplify_eq. rewrite (Hid _ _ Hd'). by rewrite Hd'.
  - intros [Hk [= Hd]].
    assert (Repo._hostname_index self !! h = Some (Device.id d)) as ->
      by (apply Hhi; eauto).
    simpl. by rewrite Hd.
Qed.

Lemma get_by_hostname_agrees_with_get_by_id_witness :
  Device.hostname spine1_device = Some "spine1" ∧
  Repo.get_by_id 1 two_devices = (Return (Some spine1_device), two_devices).
Proof.
  apply (get_by_hostname_agrees_with_get_by_id two_devices (Some "spine1") spine1_device
           two_devices_lockstep).
  vm_compute. reflexivity.
Defined.

(** X17. In a repository in lockstep [get_all] lists every stored device
    once: no two of its devices share an identity, and a device is listed
    exactly when [get_by_id] returns it for its identity. *)
Theorem get_all_lists_each_device_once self :
  lockstep self →
  ∃ all,
    Repo.get_all self = (Return all, self) ∧
    NoDup (Device.id <$> all) ∧
    ∀ d, d ∈ all ↔ Repo.get_by_id (Device.id d) self = (Return (Some d), self).
Proof.
  intros (Hid & _ & _). exists (Repo.values (Repo._devices self)).
  unfold Repo.get_all, Repo.get_by_id. run_method. split; [done|]. split.
  - unfold Repo.values. rewrite <- list_fmap_compose.
    rewrite (list_fmap_ext _ fst).
    + apply NoDup_fst_map_to_list.
    + intros i [device_id d] Hin. simpl. apply Hid.
      apply elem_of_map_to_list. by eapply list_elem_of_lookup_2.
  - intros d. rewrite elem_of_values. split.
    + intros (device_id & Hd). by rewrite (Hid _ _ Hd), Hd.
    + intros [= Hd]. eauto.
Qed.

Lemma get_all_lists_each_device_once_witness :
  ∃ all, Repo.get_all two_devices = (Return all, two_devices) ∧
         NoDup (Device.id <$> all).
Proof.
  destruct (get_all_lists_each_device_once two_devices two_devices_lockstep)
    as (all & Hall & Hnodup & _).
  exists all. exact (conj Hall Hnodup).
Defined.

(** The loop with the platform criterion alone returns whenever the loop
    with more criteria does. *)
Lemma filter_loop_platform_alone platform role site devices results out results' :
  Repo.filter_loop platform role site devices results = Return out →
  ∃ out', Repo.filter_loop platform None None devices results' = Return out'.
Proof.
  revert results results'. induction devices as [|d rest IH]; intros results results'; simpl.
  { eauto. }
  unfold Repo.value_differs.
  destruct platform as [p|], (Device.platform d) as [dp|]; simpl; try done;
    repeat case_match; try done; eauto.
Qed.

(** X18. Criteria compose: when [filter_by] returns for a platform, a role
    and a site, it returns for the platform alone too, and what it returned
    is what it returns for the platform alone, filtered by the role and the
    site; so more criteria never add a device. *)
Theorem filter_by_criteria_compose self platform role site results self' :
  Repo.filter_by platform role site self = (Return results, self') →
  self' = self ∧
  ∃ by_platform,
    Repo.filter_by platform None None self = (Return by_platform, self) ∧
    results = filter (matches_criteria None role site) by_platform ∧
    ∀ d, d ∈ results → d ∈ by_platform.
Proof.
  unfold Repo.filter_by. run_method.
  destruct (Repo.filter_loop platform role site _ _) as [out|] eqn:Hloop; [|done].
  intros [= <- <-]. split; [done|].
  destruct (filter_loop_platform_alone _ _ _ _ _ _ [] Hloop) as [by_platform Hp].
  exists by_platform. rewrite Hp. split; [done|].
  apply filter_loop_returns in Hloop, Hp. simpl in Hloop, Hp. subst out by_platform.
  split.
  - rewrite list_filter_filter. apply list_filter_iff.
    intros d. unfold matches_criteria. simpl. tauto.
  - intros d. rewrite !list_elem_of_filter. unfold matches_criteria. simpl. tauto.
Qed.

Lemma filter_by_criteria_compose_witness :
  ∃ by_platform,
    Repo.filter_by (Some "eos") None None two_devices = (Return by_platform, two_devices) ∧
    [spine1_device] = filter (matches_criteria None (Some "spine") (Some "dc1")) by_platform.
Proof.
  destruct (filter_by_criteria_compose two_devices (Some "eos") (Some "spine") (Some "dc1")
              [spine1_device] two_devices)
    as (_ & by_platform & Hp & Hr & _); [vm_compute; reflexivity|].
  exists by_platform. exact (conj Hp Hr).
Defined.

(** ** The enumerations *)

Lemma DevicePlatform_value_inj p q :
  DevicePlatform_value p = DevicePlatform_value q → p = q.
Proof. destruct p, q; simpl; intros Heq; done. Qed.

Lemma DeviceRole_value_inj r q :
  DeviceRole_value r = DeviceRole_value q → r = q.
Proof. destruct r, q; simpl; intros Heq; done. Qed.


(** X19. Filtering by the value of an enumeration member selects on the
    typed field: in a repository whose devices all have a platform and a
    role, [filter_by] with the value of a platform returns the devices of
    [get_all] whose platform is that member, and likewise for a role. *)
Theorem filter_by_member_value self (p : DevicePlatform) (r : DeviceRole) :
  platform_and_role_set (Repo.values (Repo._devices self)) →
  ∃ all,
    Repo.get_all self = (Return all, self) ∧
    Repo.filter_by (Some (DevicePlatform_value p)) None None self
    = (Return (filter (λ d, Device.platform d = Some p) all), self) ∧
    Repo.filter_by None (Some (DeviceRole_value r)) None self
    = (Return (filter (λ d, Device.role d = Some r) all), self).
Proof.
  intros Ht. eexists. unfold Repo.get_all, Repo.filter_by. run_method.
  rewrite !filter_loop_typed by done. simpl. split; [done|].
  split; do 2 f_equal; apply list_filter_iff; intros d;
    unfold matches_criteria; simpl; split.
  - intros (Hv & _). destruct (Device.platform d); simplify_eq/=.
    f_equal. by apply DevicePlatform_value_inj.
  - by intros ->.
  - intros (_ & Hv & _). destruct (Device.role d); simplify_eq/=.
    f_equal. by apply DeviceRole_value_inj.
  - by intros ->.
Qed.

Lemma filter_by_member_value_witness :
  ∃ all,
    Repo.get_all two_devices = (Return all, two_devices) ∧
    Repo.filter_by (Some "eos") None None two_devices
    = (Return (filter (λ d, Device.platform d = Some EOS) all), two_devices).
Proof.
  destruct (filter_by_member_value two_devices EOS SPINE) as (all & Hall & Hp & _).
  - intros d Hd. vm_compute in Hd.
    apply elem_of_cons in Hd as [->|Hd]; [simpl; eauto|].
    apply list_elem_of_singleton in Hd as ->. simpl. eauto.
  - exists all. exact (conj Hall Hp).
Defined.

(** X20. Looking a member up by its value and taking the value of a member
    are inverse: the lookup of a member's value returns that member, a lookup
    that returns a member was given its value, and a lookup fails exactly for
    the strings that are no member's value. For both enumerations. *)
Theorem enum_value_round_trip :
  (∀ p, DevicePlatform_of_value (DevicePlatform_value p) = Some p) ∧
  (∀ s p, DevicePlatform_of_value s = Some p ↔ DevicePlatform_value p = s) ∧
  (∀ s, DevicePlatform_of_value s = None ↔ ∀ p, DevicePlatform_value p ≠ s) ∧
  (∀ r, DeviceRole_of_value (DeviceRole_value r) = Some r) ∧
  (∀ s r, DeviceRole_of_value s = Some r ↔ DeviceRole_value r = s) ∧
  (∀ s, DeviceRole_of_value s = None ↔ ∀ r, DeviceRole_value r ≠ s).
Proof.
  assert (∀ p, DevicePlatform_of_value (DevicePlatform_value p) = Some p) as Hp
    by (by intros []).
  assert (∀ r, DeviceRole_of_value (DeviceRole_value r) = Some r) as Hr
    by (by intros []).
  assert (∀ s p, DevicePlatform_of_value s = Some p → DevicePlatform_value p = s) as Hp'.
  { intros s p [_ Hv]%find_some. by apply bool_decide_eq_true in Hv. }
  assert (∀ s r, DeviceRole_of_value s = Some r → DeviceRole_value r = s) as Hr'.
  { intros s r [_ Hv]%find_some. by apply bool_decide_eq_true in Hv. }
  split; [done|]. split; [|split; [|split; [done|split]]].
  - intros s p. split; [apply Hp'|]. by intros <-.
  - intros s. split.
    + intros Hnone p <-. by rewrite Hp in Hnone.
    + intros Hnone. destruct (DevicePlatform_of_value s) as [p|] eqn:Hs; [|done].
      by apply Hp', Hnone in Hs.
  - intros s r. split; [apply Hr'|]. by intros <-.
  - intros s. split.
    + intros Hnone r <-. by rewrite Hr in Hnone.
    + intros Hnone. destruct (DeviceRole_of_value s) as [r|] eqn:Hs; [|done].
      by apply Hr', Hnone in Hs.
Qed.

Lemma enum_value_round_trip_witness :
  DevicePlatform_of_value "eos" = Some EOS ∧ DeviceRole_of_value "wan" = Some WAN ∧
  DevicePlatform_of_value "cisco_ios" = None.
Proof.
  destruct enum_value_round_trip as (_ & Hp & Hnone & _ & Hr & _).
  split; [by apply Hp|]. split; [by apply Hr|].
  apply Hnone. intros []; vm_compute; discriminate.
Defined.

(** ** Invariants of call sequences *)

Lemma add_keeps_store_well_formed uuid4 now_created now_updated device_data self :
  store_well_formed self →
  store_well_formed (snd (Repo.add uuid4 now_created now_updated device_data self)).
Proof.
  intros Hwf. rewrite add_unfold.
  destruct (Repo.contains _ (Repo._hostname_index self)); [done|].
  destruct (Repo.contains _ (Repo._ip_index self)); [done|].
  destruct (Device_init _ _ _ _ _ _ _ _) as [d|] eqn:Hinit; [|done].
  apply Device_init_inv in Hinit as (Hh & Hs & ->).
  intros i d'. simpl. rewrite lookup_insert. case_decide; [|by auto].
  intros [= <-]. simpl. split; [done|]. split; by intros ? [= <-].
Qed.

Lemma update_keeps_store_well_formed now device_id update_data self :
  DeviceUpdate.valid update_data →
  store_well_formed self →
  store_well_formed (snd (Repo.update now device_id update_data self)).
Proof.
  intros [Hvh Hvs] Hwf.
  destruct (Repo._devices self !! device_id) as [existing|] eqn:Hd;
    [|by rewrite update_absent].
  destruct (Updates.is_empty (model_dump_exclude_unset update_data)) eqn:He;
    [by rewrite (update_nothing_set _ _ _ _ existing)|].
  rewrite (update_unfold _ _ _ _ existing) by done.
  destruct (hostname_conflict _ _ _); [done|].
  destruct (ip_conflict _ _ _); [done|]. cbv zeta.
  destruct (_ && _); [done|]. destruct (_ && _); [done|].
  destruct (Hwf _ _ Hd) as (Hid & Hh & Hs).
  intros i d'. simpl. rewrite lookup_insert. case_decide; [|by auto].
  intros [= <-]. subst i.
  unfold updated_device, model_copy, model_dump_exclude_unset. simpl.
  split; [done|]. split.
  - destruct (DeviceUpdate.hostname update_data) as [h|] eqn:Eh; simpl; [|done].
    intros h' ->. by apply Hvh.
  - destruct (DeviceUpdate.site update_data) as [s|] eqn:Es; simpl; [|done].
    intros s' ->. by apply Hvs.
Qed.

Lemma delete_keeps_store_well_formed device_id self :
  store_well_formed self → store_well_formed (snd (Repo.delete device_id self)).
Proof.
  intros Hwf. rewrite delete_unfold.
  destruct (Repo._devices self !! device_id) as [device|]; [|done]. cbv zeta.
  assert (∀ i d, delete device_id (Repo._devices self) !! i = Some d →
                 Repo._devices self !! i = Some d) as Hsub.
  { intros i d. rewrite lookup_delete. by case_decide. }
  destruct (negb _); [intros i d Hi; apply Hwf; auto|].
  destruct (negb _); intros i d Hi; apply Hwf; auto.
Qed.

(** X21. In every repository reached from the empty one by calls of [add],
    [update] and [delete] on payloads of the schemas (with identities that
    were not in use), whether the calls returned or raised, every stored
    device sits under its own identity, and its hostname, unless an update
    has set it to [None], has 1 to 253 characters, and its site, unless an
    update has set it to [None], 1 to 100 characters. *)
Theorem reachable_store_well_formed self :
  reachable self → store_well_formed self.
Proof.
  induction 1 as [|c self Hreach IH Hok _].
  - intros i d Hd. simpl in Hd. by rewrite lookup_empty in Hd.
  - destruct c as [uuid4 t1 t2 device_data | now device_id update_data | device_id];
      simpl.
    + by apply add_keeps_store_well_formed.
    + by apply update_keeps_store_well_formed.
    + by apply delete_keeps_store_well_formed.
Qed.

Lemma reachable_store_well_formed_witness :
  store_well_formed (run_calls whitespace_calls Repo.__init__).
Proof.
  apply reachable_store_well_formed, reachable_by_run_calls; [apply reachable_init|].
  check_calls.
Defined.

(** X22. In every repository reached from the empty one by calls whose [add]
    payloads carry hostnames without surrounding whitespace, the three
    containers are in lockstep, no two stored devices share a hostname, and
    no two share a canonical address text. *)
Theorem trimmed_calls_keep_lockstep self :
  reachable_by add_hostname_trimmed self →
  lockstep self ∧ unique_hostnames self ∧ unique_ips self.
Proof.
  intros Hl%lockstep_invariant_trimmed. split; [done|]. by apply lockstep_unique.
Qed.

Lemma trimmed_calls_keep_lockstep_witness :
  lockstep two_devices ∧ unique_hostnames two_devices ∧ unique_ips two_devices.
Proof.
  apply trimmed_calls_keep_lockstep, reachable_by_run_calls; [apply reachable_init|].
  check_calls.
Defined.

(** X23. In every repository reached from the empty one an [update] that
    raises has changed nothing, whatever it raises. One thing it raises is
    [KeyError]: when the payload passes the duplicate checks and changes the
    hostname of a stored device whose hostname has no entry in the hostname
    index, a state that the two [add]s of ["spine1"] and ["spine1 "] and a
    renaming lead to. *)
Theorem update_missing_index_entry now device_id update_data self :
  reachable self →
  (∀ e self', Repo.update now device_id update_data self = (Raise e, self') → self' = self)
  ∧
  (∀ existing,
     Repo._devices self !! device_id = Some existing →
     Updates.is_empty (model_dump_exclude_unset update_data) = false →
     hostname_conflict self existing update_data = None →
     ip_conflict self existing update_data = None →
     Device.hostname (updated_device now existing update_data) ≠ Device.hostname existing →
     Repo._hostname_index self !! Device.hostname existing = None →
     Repo.update now device_id update_data self = (Raise KeyError, self)).
Proof.
  intros Hreach. split.
  - intros e self'.
    destruct (Repo._devices self !! device_id) as [existing|] eqn:Hd;
      [|by rewrite update_absent].
    destruct (Updates.is_empty (model_dump_exclude_unset update_data)) eqn:He;
      [by rewrite (update_nothing_set _ _ _ _ existing)|].
    rewrite (update_unfold _ _ _ _ existing) by done.
    destruct (hostname_conflict _ _ _); [by intros [= _ <-]|].
    destruct (ip_conflict _ _ _); [by intros [= _ <-]|]. cbv zeta.
    destruct (_ && _); [by intros [= _ <-]|].
    pose proof (reachable_by_ip_indexed _ _ Hreach _ _ Hd) as Hip.
    assert (Repo.contains (ip_key existing) (Repo._ip_index self) = true) as ->
      by (apply contains_true; eauto).
    by rewrite andb_false_r.
  - intros existing Hd He Hhc Hic Hne Hmiss%contains_false.
    rewrite (update_unfold _ _ _ _ existing) by done. rewrite Hhc, Hic.
    cbv zeta. by rewrite bool_decide_true, Hmiss.
Qed.

(** After the two [add]s and the renaming of the first device, renaming the
    second one raises [KeyError] and changes nothing. *)
Lemma update_missing_index_entry_witness :
  let self := run_calls rename_calls Repo.__init__ in
  Repo.update 4000 2 (set_hostname "spine2") self = (Raise KeyError, self).
Proof.
  intros self.
  destruct (update_missing_index_entry 4000 2 (set_hostname "spine2") self) as [_ Hkey].
  - apply reachable_by_run_calls; [apply reachable_init|]. check_calls.
  - apply (Hkey (Device.mk 2 (Some "spine1") (Some ip_10_0_0_2) (Some EOS) (Some SPINE)
                   (Some "dc1") 2000 2000));
      [vm_compute; reflexivity | reflexivity | vm_compute; reflexivity | reflexivity
      | vm_compute; discriminate | vm_compute; reflexivity].
Defined.

(** ** The message of [DuplicateDeviceError] *)





(** ** The IP index in every call sequence *)

(** X25. Whatever the calls of [add], [update] and [delete] that were made
    on the empty repository, with whatever payloads and outcomes, the IP
    index maps the canonical address text of every stored device to its
    identity, and no two stored devices share a canonical address text. *)
Theorem reachable_ip_indexed P self :
  reachable_by P self → ip_indexed self ∧ unique_ips self.
Proof.
  intros Hj%reachable_by_ip_indexed.
  split; [done|].
  intros id1 id2 d1 d2 H1 H2 Heq.
  apply Hj in H1, H2. rewrite Heq in H1. congruence.
Qed.

Lemma reachable_ip_indexed_witness :
  unique_ips (run_calls whitespace_calls Repo.__init__).
Proof.
  apply (reachable_ip_indexed (λ _, True)), reachable_by_run_calls;
    [apply reachable_init|].
  check_calls.
Defined.
